(** * go-monetdb: the textual value codec of converter.go

    A shallow embedding of [converter.go] (package [monetdb]) together
    with the parts of the Go standard library it calls ([unicode/utf8],
    [unicode], [strings], [strconv], [time]), and the properties of the
    codec proved over that embedding.

    Conventions.
    - A Go [string] is a sequence of bytes: Rocq's [string] (a list of
      8-bit [ascii]).  Bytes are read as numbers with [b2z] and built with
      [z2b] (the conversion [byte(x)], which keeps the low 8 bits).
    - Go's [int], [rune] and the sized integers are [Z]; where the source
      relies on wrap-around it is written out.
    - A Go function returning [(T, error)] returns a pair whose second
      component is [option error] ([None] is [nil]); both components are
      kept, since the code returns a zero value next to its error.
    - A run-time panic is the [Panic] outcome. *)

From Stdlib Require Import ZArith Lia List Ascii String Bool.
From stdpp Require Import gmap strings.

Local Open Scope string_scope.
Local Open Scope Z_scope.

(** ** Bytes and strings *)

Definition b2z (c : ascii) : Z := Z.of_N (N_of_ascii c).
Definition z2b (z : Z) : ascii := ascii_of_N (Z.to_N (z mod 256)).

(** [len(s)] *)
Definition len (s : string) : Z := Z.of_nat (String.length s).

(** [s[n:]] and [s[:n]] for [0 <= n]; clipped at the end of [s]. The
    callers below establish [n <= len(s)] before slicing, as the Go code
    does. *)
Fixpoint sdrop (n : nat) (s : string) : string :=
  match n, s with
  | O, _ => s
  | S k, String _ t => sdrop k t
  | S _, EmptyString => EmptyString
  end.

Fixpoint stake (n : nat) (s : string) : string :=
  match n, s with
  | O, _ => EmptyString
  | S k, String c t => String c (stake k t)
  | S _, EmptyString => EmptyString
  end.

Definition dropZ (n : Z) (s : string) : string := sdrop (Z.to_nat n) s.
Definition takeZ (n : Z) (s : string) : string := stake (Z.to_nat n) s.

(** [s[i]] as a number; 0 outside the string (every use below is guarded
    by a length test). *)
Definition sidx (s : string) (i : Z) : Z :=
  match String.get (Z.to_nat i) s with
  | Some c => if 0 <=? i then b2z c else 0
  | None => 0
  end.

(** [strings.HasPrefix] *)
Fixpoint hasPrefix (s p : string) : bool :=
  match p, s with
  | EmptyString, _ => true
  | String a p', String b s' => if Ascii.eqb a b then hasPrefix s' p' else false
  | String _ _, EmptyString => false
  end.

(** ** Outcomes: a returned value or a run-time panic *)

Inductive runtimeError : Type :=
| SliceBoundsOutOfRange (lo hi : Z).

Inductive outcome (A : Type) : Type :=
| Ret (a : A)
| Panic (e : runtimeError).
Arguments Ret {A} a.
Arguments Panic {A} e.

Definition obind {A B} (o : outcome A) (k : A -> outcome B) : outcome B :=
  match o with
  | Ret a => k a
  | Panic e => Panic e
  end.

(** The slice expression [s[lo:hi]] with Go's bounds check
    [0 <= lo <= hi <= len(s)]. *)
Definition slice (s : string) (lo hi : Z) : outcome string :=
  if (0 <=? lo) && (lo <=? hi) && (hi <=? len s)
  then Ret (takeZ (hi - lo) (dropZ lo s))
  else Panic (SliceBoundsOutOfRange lo hi).

(** ** Errors *)

Inductive strconvErr : Type :=
| ErrRange
| ErrSyntax
| ErrBase (base : Z)        (* "invalid base <base>" *)
| ErrBitSize (bitSize : Z). (* "invalid bit size <bitSize>" *)

Inductive error : Type :=
| StrconvError (e : strconvErr)
    (* the bare sentinel, as UnquoteChar returns it *)
| NumError (Func Num : string) (Err : strconvErr)
    (* *strconv.NumError *)
| ParseError (Layout Value LayoutElem ValueElem Message : string)
    (* *time.ParseError *)
| Errorf (msg : string).
    (* fmt.Errorf *)

(** ** unicode/utf8 *)

Definition utf8_RuneError : Z := 0xFFFD.
Definition utf8_RuneSelf : Z := 0x80.
Definition utf8_MaxRune : Z := 0x10FFFF.
Definition utf8_UTFMax : Z := 4.

Definition surrogateMin : Z := 0xD800.
Definition surrogateMax : Z := 0xDFFF.

Definition t1 : Z := 0x00.
Definition tx : Z := 0x80.
Definition t2 : Z := 0xC0.
Definition t3 : Z := 0xE0.
Definition t4 : Z := 0xF0.
Definition t5 : Z := 0xF8.

Definition maskx : Z := 0x3F.
Definition mask2 : Z := 0x1F.
Definition mask3 : Z := 0x0F.
Definition mask4 : Z := 0x07.

Definition rune1Max : Z := 0x7F.
Definition rune2Max : Z := 0x7FF.
Definition rune3Max : Z := 0xFFFF.

Definition locb : Z := 0x80.
Definition hicb : Z := 0xBF.

(** Entries of the [first] table. *)
Definition first_xx : Z := 0xF1.
Definition first_as : Z := 0xF0.
Definition first_s1 : Z := 0x02.
Definition first_s2 : Z := 0x13.
Definition first_s3 : Z := 0x03.
Definition first_s4 : Z := 0x23.
Definition first_s5 : Z := 0x34.
Definition first_s6 : Z := 0x04.
Definition first_s7 : Z := 0x44.

(** [first[b]]: information about the first byte of an encoding. *)
Definition first (b : Z) : Z :=
  if b <? 0x80 then first_as
  else if b <? 0xC2 then first_xx
  else if b <? 0xE0 then first_s1
  else if b =? 0xE0 then first_s2
  else if b <? 0xED then first_s3
  else if b =? 0xED then first_s4
  else if b <? 0xF0 then first_s3
  else if b =? 0xF0 then first_s5
  else if b <? 0xF4 then first_s6
  else if b =? 0xF4 then first_s7
  else first_xx.

(** [acceptRanges[i]] as the pair (lo, hi). *)
Definition acceptRanges (i : Z) : Z * Z :=
  if i =? 0 then (locb, hicb)
  else if i =? 1 then (0xA0, hicb)
  else if i =? 2 then (locb, 0x9F)
  else if i =? 3 then (0x90, hicb)
  else if i =? 4 then (locb, 0x8F)
  else (0, 0).

(** Conversion to [int32] (two's complement wrap-around). *)
Definition int32 (z : Z) : Z := (z + 2 ^ 31) mod 2 ^ 32 - 2 ^ 31.

Definition utf8_DecodeRuneInString (s : string) : Z * Z :=
  let n := len s in
  if n <? 1 then (utf8_RuneError, 0) else
  let s0 := sidx s 0 in
  let x := first s0 in
  if first_as <=? x then
    let mask := Z.shiftr (int32 (Z.shiftl x 31)) 31 in
    (Z.lor (Z.ldiff s0 mask) (Z.land utf8_RuneError mask), 1)
  else
  let sz := Z.land x 7 in
  let accept := acceptRanges (Z.shiftr x 4) in
  if n <? sz then (utf8_RuneError, 1) else
  let s1 := sidx s 1 in
  if (s1 <? fst accept) || (snd accept <? s1) then (utf8_RuneError, 1) else
  if sz <=? 2 then
    (Z.lor (Z.shiftl (Z.land s0 mask2) 6) (Z.land s1 maskx), 2)
  else
  let s2 := sidx s 2 in
  if (s2 <? locb) || (hicb <? s2) then (utf8_RuneError, 1) else
  if sz <=? 3 then
    (Z.lor (Z.lor (Z.shiftl (Z.land s0 mask3) 12) (Z.shiftl (Z.land s1 maskx) 6))
           (Z.land s2 maskx), 3)
  else
  let s3 := sidx s 3 in
  if (s3 <? locb) || (hicb <? s3) then (utf8_RuneError, 1) else
  (Z.lor (Z.lor (Z.lor (Z.shiftl (Z.land s0 mask4) 18)
                       (Z.shiftl (Z.land s1 maskx) 12))
                (Z.shiftl (Z.land s2 maskx) 6))
         (Z.land s3 maskx), 4).

(** [RuneStart(b)]: [b&0xC0 != 0x80]. *)
Definition utf8_RuneStart (b : Z) : bool := negb (Z.land b 0xC0 =? 0x80).

(** The backward scan of DecodeLastRuneInString:
    [for start--; start >= lim; start-- { if RuneStart(s[start]) { break } }],
    entered after the first decrement.  It runs at most [UTFMax] times. *)
Fixpoint backToRuneStart (fuel : nat) (s : string) (start lim : Z) : Z :=
  match fuel with
  | O => start
  | S k =>
      if start <? lim then start
      else if utf8_RuneStart (sidx s start) then start
      else backToRuneStart k s (start - 1) lim
  end.

Definition utf8_DecodeLastRuneInString (s : string) : Z * Z :=
  let end_ := len s in
  if end_ =? 0 then (utf8_RuneError, 0) else
  let start := end_ - 1 in
  let r := sidx s start in
  if r <? utf8_RuneSelf then (r, 1) else
  let lim := Z.max (end_ - utf8_UTFMax) 0 in
  let start := backToRuneStart 5 s (start - 1) lim in
  let start := if start <? 0 then 0 else start in
  let '(r, size) := utf8_DecodeRuneInString (takeZ (end_ - start) (dropZ start s)) in
  if negb (start + size =? end_) then (utf8_RuneError, 1) else (r, size).

(** [EncodeRune], returning the bytes written. The switch is on
    [uint32(r)]. *)
Definition utf8_EncodeRune (r : Z) : string :=
  let i := r mod 2 ^ 32 in
  let three (r : Z) :=
    String (z2b (Z.lor t3 (b2z (z2b (Z.shiftr r 12)))))
   (String (z2b (Z.lor tx (Z.land (b2z (z2b (Z.shiftr r 6))) maskx)))
   (String (z2b (Z.lor tx (Z.land (b2z (z2b r)) maskx))) EmptyString)) in
  if i <=? rune1Max then String (z2b r) EmptyString
  else if i <=? rune2Max then
    String (z2b (Z.lor t2 (b2z (z2b (Z.shiftr r 6)))))
   (String (z2b (Z.lor tx (Z.land (b2z (z2b r)) maskx))) EmptyString)
  else if (utf8_MaxRune <? i) || ((surrogateMin <=? i) && (i <=? surrogateMax))
  then three utf8_RuneError
  else if i <=? rune3Max then three r
  else
    String (z2b (Z.lor t4 (b2z (z2b (Z.shiftr r 18)))))
   (String (z2b (Z.lor tx (Z.land (b2z (z2b (Z.shiftr r 12))) maskx)))
   (String (z2b (Z.lor tx (Z.land (b2z (z2b (Z.shiftr r 6))) maskx)))
   (String (z2b (Z.lor tx (Z.land (b2z (z2b r)) maskx))) EmptyString))).

(** [ValidRune] *)
Definition utf8_ValidRune (r : Z) : bool :=
  if (0 <=? r) && (r <? surrogateMin) then true
  else if (surrogateMax <? r) && (r <=? utf8_MaxRune) then true
  else false.

(** [ValidString]: the byte loop of the library, one encoding per step. *)
Fixpoint utf8_ValidString (s : string) : bool :=
  match s with
  | EmptyString => true
  | String c0 r0 =>
      let si := b2z c0 in
      if si <? utf8_RuneSelf then utf8_ValidString r0 else
      let x := first si in
      if x =? first_xx then false else
      let size := Z.land x 7 in
      let accept := acceptRanges (Z.shiftr x 4) in
      match r0 with
      | EmptyString => false
      | String c1 r1 =>
          let b1 := b2z c1 in
          if (b1 <? fst accept) || (snd accept <? b1) then false
          else if size =? 2 then utf8_ValidString r1
          else
            match r1 with
            | EmptyString => false
            | String c2 r2 =>
                let b2 := b2z c2 in
                if (b2 <? locb) || (hicb <? b2) then false
                else if size =? 3 then utf8_ValidString r2
                else
                  match r2 with
                  | EmptyString => false
                  | String c3 r3 =>
                      let b3 := b2z c3 in
                      if (b3 <? locb) || (hicb <? b3) then false
                      else utf8_ValidString r3
                  end
            end
      end
  end.

(** ** unicode *)

(** [unicode.IsSpace]: the Latin-1 switch, then the White_Space table
    outside Latin-1. *)
Definition unicode_IsSpace (r : Z) : bool :=
  if r mod 2 ^ 32 <=? 0xFF then
    (r =? 0x09) || (r =? 0x0A) || (r =? 0x0B) || (r =? 0x0C) || (r =? 0x0D)
    || (r =? 0x20) || (r =? 0x85) || (r =? 0xA0)
  else
    (r =? 0x1680) || ((0x2000 <=? r) && (r <=? 0x200A))
    || (r =? 0x2028) || (r =? 0x2029) || (r =? 0x202F) || (r =? 0x205F)
    || (r =? 0x3000).

(** ** strings *)

(** [asciiSpace[c] == 1] *)
Definition asciiSpace (c : Z) : bool :=
  (c =? 0x09) || (c =? 0x0A) || (c =? 0x0B) || (c =? 0x0C) || (c =? 0x0D)
  || (c =? 0x20).

(** [TrimLeftFunc(s, f)]: [indexFunc(s, f, false)] ranges over the runes
    of [s] and stops at the first one that [f] rejects. Every step consumes
    at least one byte, so [String.length s] steps suffice. *)
Fixpoint trimLeftLoop (fuel : nat) (s : string) (f : Z -> bool) : string :=
  match fuel with
  | O => EmptyString
  | S k =>
      match s with
      | EmptyString => EmptyString
      | String _ _ =>
          let '(r, wid) := utf8_DecodeRuneInString s in
          if f r then trimLeftLoop k (dropZ wid s) f else s
      end
  end.

Definition strings_TrimLeftFunc (s : string) (f : Z -> bool) : string :=
  trimLeftLoop (String.length s) s f.

(** [lastIndexFunc(s, f, truth)], the loop
    [for i := len(s); i > 0; { r, size := DecodeLastRuneInString(s[0:i]); i -= size; ... }]. *)
Fixpoint lastIndexLoop (fuel : nat) (s : string) (i : Z) (f : Z -> bool)
    (truth : bool) : Z :=
  match fuel with
  | O => -1
  | S k =>
      if 0 <? i then
        let '(r, size) := utf8_DecodeLastRuneInString (takeZ i s) in
        let i := i - size in
        if Bool.eqb (f r) truth then i else lastIndexLoop k s i f truth
      else -1
  end.

Definition lastIndexFunc (s : string) (f : Z -> bool) (truth : bool) : Z :=
  lastIndexLoop (S (String.length s)) s (len s) f truth.

Definition strings_TrimRightFunc (s : string) (f : Z -> bool) : string :=
  let i := lastIndexFunc s f false in
  let i :=
    if (0 <=? i) && (utf8_RuneSelf <=? sidx s i)
    then i + snd (utf8_DecodeRuneInString (dropZ i s))
    else i + 1 in
  takeZ i s.

Definition strings_TrimFunc (s : string) (f : Z -> bool) : string :=
  strings_TrimRightFunc (strings_TrimLeftFunc s f) f.

(** [TrimSpace]. The first loop walks forward over ASCII space and hands
    the rest to [TrimFunc] when it meets a byte >= RuneSelf. *)
Fixpoint trimSpaceStart (s : string) : string + string :=
  match s with
  | EmptyString => inr EmptyString
  | String c t =>
      if utf8_RuneSelf <=? b2z c then inl (strings_TrimFunc s unicode_IsSpace)
      else if asciiSpace (b2z c) then trimSpaceStart t
      else inr s
  end.

(** The second loop walks backward from the end of [s[start:]]; it is
    written over the reversed string [r], and hands [s[start:stop]] to
    [TrimRightFunc] when it meets a byte >= RuneSelf. *)
Fixpoint trimSpaceStop (r : string) : string :=
  match r with
  | EmptyString => EmptyString
  | String c t =>
      if utf8_RuneSelf <=? b2z c
      then strings_TrimRightFunc (String.rev r) unicode_IsSpace
      else if asciiSpace (b2z c) then trimSpaceStop t
      else String.rev r
  end.

Definition strings_TrimSpace (s : string) : string :=
  match trimSpaceStart s with
  | inl t => t
  | inr t => trimSpaceStop (String.rev t)
  end.

(** [Replace(s, old, new, n)] for a non-empty [old] (converter.go passes
    one-byte patterns): the leftmost non-overlapping occurrences are
    replaced, at most [n] of them when [n >= 0] and all of them when
    [n < 0].  [skip] counts the bytes of a matched [old] still to pass.
    With an empty [old] Go inserts [new] at rune boundaries; that case is
    not modelled and leaves [s] as it is. *)
Fixpoint replaceLoop (skip : nat) (old new : string) (n : Z) (s : string)
    : string :=
  match s with
  | EmptyString => EmptyString
  | String c t =>
      match skip with
      | S k => replaceLoop k old new n t
      | O =>
          if negb (n =? 0) && hasPrefix s old
          then new ++ replaceLoop (String.length old - 1) old new (n - 1) t
          else String c (replaceLoop O old new n t)
      end
  end.

Definition strings_Replace (s old new : string) (n : Z) : string :=
  match old with
  | EmptyString => s
  | String _ _ => if String.eqb old new then s else replaceLoop O old new n s
  end.

(** ** strconv *)

(** [contains], copied into converter.go from strconv. *)
Fixpoint contains (s : string) (c : ascii) : bool :=
  match s with
  | EmptyString => false
  | String a t => if Ascii.eqb a c then true else contains t c
  end.

Definition unhex (b : Z) : Z * bool :=
  if (0x30 <=? b) && (b <=? 0x39) then (b - 0x30, true)
  else if (0x61 <=? b) && (b <=? 0x66) then (b - 0x61 + 10, true)
  else if (0x41 <=? b) && (b <=? 0x46) then (b - 0x41 + 10, true)
  else (0, false).

(** The loop [for j := 0; j < n; j++ { x, ok := unhex(s[j]); ...; v = v<<4 | x }]
    over the first [n] bytes of [s] ([len(s) >= n] is checked before);
    [v] is a rune, an int32. *)
Fixpoint unhexLoop (n : nat) (s : string) (v : Z) : option Z :=
  match n with
  | O => Some v
  | S k =>
      match s with
      | EmptyString => None
      | String c t =>
          let '(x, ok) := unhex (b2z c) in
          if ok then unhexLoop k t (int32 (Z.lor (Z.shiftl v 4) x)) else None
      end
  end.

(** The loop over the two further octal digits. *)
Fixpoint octalLoop (n : nat) (s : string) (v : Z) : option Z :=
  match n with
  | O => Some v
  | S k =>
      match s with
      | EmptyString => None
      | String c t =>
          let x := b2z c - 0x30 in
          if (x <? 0) || (7 <? x) then None
          else octalLoop k t (Z.lor (Z.shiftl v 3) x)
      end
  end.

Definition unquoteCharResult : Type := Z * bool * string * option error.

Definition unquoteCharSyntax : unquoteCharResult :=
  (0, false, EmptyString, Some (StrconvError ErrSyntax)).

(** [strconv.UnquoteChar(s, quote)] returning (value, multibyte, tail, err). *)
Definition strconv_UnquoteChar (s : string) (quote : ascii) : unquoteCharResult :=
  match s with
  | EmptyString => unquoteCharSyntax
  | String c0 t0 =>
      if Ascii.eqb c0 quote && (Ascii.eqb quote "'" || Ascii.eqb quote "034")
      then unquoteCharSyntax
      else if utf8_RuneSelf <=? b2z c0 then
        let '(r, size) := utf8_DecodeRuneInString s in
        (r, true, dropZ size s, None)
      else if negb (Ascii.eqb c0 "\") then (b2z c0, false, t0, None)
      else
        (* hard case: c0 is a backslash *)
        match t0 with
        | EmptyString => unquoteCharSyntax
        | String c s =>
            let simple (v : Z) : unquoteCharResult := (v, false, s, None) in
            if Ascii.eqb c "a" then simple 0x07
            else if Ascii.eqb c "b" then simple 0x08
            else if Ascii.eqb c "f" then simple 0x0C
            else if Ascii.eqb c "n" then simple 0x0A
            else if Ascii.eqb c "r" then simple 0x0D
            else if Ascii.eqb c "t" then simple 0x09
            else if Ascii.eqb c "v" then simple 0x0B
            else if Ascii.eqb c "x" || Ascii.eqb c "u" || Ascii.eqb c "U" then
              let n := if Ascii.eqb c "x" then 2
                       else if Ascii.eqb c "u" then 4 else 8 in
              if len s <? n then unquoteCharSyntax else
              match unhexLoop (Z.to_nat n) s 0 with
              | None => unquoteCharSyntax
              | Some v =>
                  let s := dropZ n s in
                  if Ascii.eqb c "x" then (v, false, s, None)
                  else if negb (utf8_ValidRune v) then unquoteCharSyntax
                  else (v, true, s, None)
              end
            else if (0x30 <=? b2z c) && (b2z c <=? 0x37) then
              let v := b2z c - 0x30 in
              if len s <? 2 then unquoteCharSyntax else
              match octalLoop 2 s v with
              | None => unquoteCharSyntax
              | Some v =>
                  let s := dropZ 2 s in
                  if 255 <? v then unquoteCharSyntax else (v, false, s, None)
              end
            else if Ascii.eqb c "\" then simple (b2z "\")
            else if Ascii.eqb c "'" || Ascii.eqb c "034" then
              if negb (Ascii.eqb c quote) then unquoteCharSyntax
              else simple (b2z c)
            else unquoteCharSyntax
        end
  end.

Definition maxUint64 : Z := 2 ^ 64 - 1.
Definition uint64 (z : Z) : Z := z mod 2 ^ 64.
Definition int64 (z : Z) : Z := (z + 2 ^ 63) mod 2 ^ 64 - 2 ^ 63.

(** [lower(c)]: [c | ('x' - 'X')]. *)
Definition lower (c : Z) : Z := Z.lor c 0x20.

(** The digit loop of ParseUint for a base between 2 and 36;
    [inl n] is the value, [inr e] the early return. *)
Fixpoint parseUintLoop (s : string) (base cutoff maxVal n : Z)
    : Z + (Z * strconvErr) :=
  match s with
  | EmptyString => inl n
  | String ch t =>
      let c := b2z ch in
      let digit :=
        if (0x30 <=? c) && (c <=? 0x39) then Some (c - 0x30)
        else if (0x61 <=? lower c) && (lower c <=? 0x7A)
        then Some (lower c - 0x61 + 10)
        else None in
      match digit with
      | None => inr (0, ErrSyntax)
      | Some d =>
          if base mod 256 <=? d then inr (0, ErrSyntax)
          else if cutoff <=? n then inr (maxVal, ErrRange)
          else
            let n := uint64 (n * base) in
            let n1 := uint64 (n + d) in
            if (n1 <? n) || (maxVal <? n1) then inr (maxVal, ErrRange)
            else parseUintLoop t base cutoff maxVal n1
      end
  end.

(** [strconv.ParseUint(s, base, bitSize)] for a base between 2 and 36.
    Base 0 (the base taken from the prefix of [s], underscores allowed) is
    not modelled and falls into the invalid-base case here: converter.go
    always passes base 10.  [IntSize] is 64. *)
Definition IntSize : Z := 64.

Definition strconv_ParseUint (s : string) (base bitSize : Z)
    : Z * option error :=
  let fnParseUint := "ParseUint" in
  if String.eqb s "" then (0, Some (NumError fnParseUint s ErrSyntax)) else
  if negb ((2 <=? base) && (base <=? 36))
  then (0, Some (NumError fnParseUint s (ErrBase base)))
  else
    let bitSize0 := bitSize in
    let bitSize := if bitSize =? 0 then IntSize else bitSize in
    if (bitSize <? 0) || (64 <? bitSize)
    then (0, Some (NumError fnParseUint s (ErrBitSize bitSize0)))
    else
      let cutoff := maxUint64 / base + 1 in
      let maxVal := uint64 (uint64 (Z.shiftl 1 bitSize) - 1) in
      match parseUintLoop s base cutoff maxVal 0 with
      | inl n => (n, None)
      | inr (v, e) => (v, Some (NumError fnParseUint s e))
      end.

(** [strconv.ParseInt(s, base, bitSize)]. *)
Definition strconv_ParseInt (s : string) (base bitSize : Z)
    : Z * option error :=
  let fnParseInt := "ParseInt" in
  match s with
  | EmptyString => (0, Some (NumError fnParseInt s ErrSyntax))
  | String c0 rest =>
      let s0 := s in
      let '(neg, s) :=
        if Ascii.eqb c0 "+" then (false, rest)
        else if Ascii.eqb c0 "-" then (true, rest)
        else (false, s) in
      let '(un, err) := strconv_ParseUint s base bitSize in
      match err with
      | Some (NumError _ _ ErrRange) | None =>
          let bitSize := if bitSize =? 0 then IntSize else bitSize in
          let cutoff := uint64 (Z.shiftl 1 (bitSize - 1)) in
          if negb neg && (cutoff <=? un)
          then (int64 (cutoff - 1), Some (NumError fnParseInt s0 ErrRange))
          else if neg && (cutoff <? un)
          then (int64 (- int64 cutoff), Some (NumError fnParseInt s0 ErrRange))
          else
            let n := int64 un in
            let n := if neg then int64 (- n) else n in
            (n, None)
      | Some (NumError _ _ e) => (0, Some (NumError fnParseInt s0 e))
      | Some e => (0, Some e)
      end
  end.

(** [strconv.ParseBool] *)
Definition strconv_ParseBool (str : string) : bool * option error :=
  if String.eqb str "1" || String.eqb str "t" || String.eqb str "T"
     || String.eqb str "true" || String.eqb str "TRUE" || String.eqb str "True"
  then (true, None)
  else if String.eqb str "0" || String.eqb str "f" || String.eqb str "F"
     || String.eqb str "false" || String.eqb str "FALSE"
     || String.eqb str "False"
  then (false, None)
  else (false, Some (NumError "ParseBool" str ErrSyntax)).

(** ** time

    [time.Parse] for the layout elements that can start at one of the
    characters [J M 0 1 2 3 4 5 -]; every element of the six layouts in
    [timeFormats] is among them.  The characters [_ P p Z . ,] start no
    element in this model (underscore padding, AM/PM, the ISO 8601 zone
    forms and fractional seconds in the layout); none of them occurs in
    [timeFormats]. *)

Inductive std : Type :=
| stdLongMonth | stdMonth | stdNumMonth | stdZeroMonth
| stdLongWeekDay | stdWeekDay
| stdDay | stdZeroDay | stdZeroYearDay
| stdHour | stdHour12 | stdZeroHour12
| stdMinute | stdZeroMinute
| stdSecond | stdZeroSecond
| stdLongYear | stdYear
| stdTZ
| stdNumTZ | stdNumSecondsTz | stdNumShortTZ | stdNumColonTZ
| stdNumColonSecondsTZ.

Definition std_eqb (a b : std) : bool :=
  match a, b with
  | stdLongMonth, stdLongMonth | stdMonth, stdMonth
  | stdNumMonth, stdNumMonth | stdZeroMonth, stdZeroMonth
  | stdLongWeekDay, stdLongWeekDay | stdWeekDay, stdWeekDay
  | stdDay, stdDay | stdZeroDay, stdZeroDay
  | stdZeroYearDay, stdZeroYearDay
  | stdHour, stdHour | stdHour12, stdHour12 | stdZeroHour12, stdZeroHour12
  | stdMinute, stdMinute | stdZeroMinute, stdZeroMinute
  | stdSecond, stdSecond | stdZeroSecond, stdZeroSecond
  | stdLongYear, stdLongYear | stdYear, stdYear
  | stdTZ, stdTZ
  | stdNumTZ, stdNumTZ | stdNumSecondsTz, stdNumSecondsTz
  | stdNumShortTZ, stdNumShortTZ | stdNumColonTZ, stdNumColonTZ
  | stdNumColonSecondsTZ, stdNumColonSecondsTZ => true
  | _, _ => false
  end.

(** [startsWithLowerCase] *)
Definition startsWithLowerCase (str : string) : bool :=
  match str with
  | EmptyString => false
  | String c _ => (0x61 <=? b2z c) && (b2z c <=? 0x7A)
  end.

(** The switch of nextStdChunk at one position: [l] is [layout[i:]]; the
    result is the element found there and [layout] after it. *)
Definition stdAt (l : string) : option (std * string) :=
  match l with
  | EmptyString => None
  | String c t =>
      if Ascii.eqb c "J" then
        if hasPrefix l "Jan" then
          if hasPrefix l "January" then Some (stdLongMonth, sdrop 7 l)
          else if negb (startsWithLowerCase (sdrop 3 l))
          then Some (stdMonth, sdrop 3 l)
          else None
        else None
      else if Ascii.eqb c "M" then
        if hasPrefix l "Mon" && hasPrefix l "Monday"
        then Some (stdLongWeekDay, sdrop 6 l)
        else if hasPrefix l "Mon" && negb (startsWithLowerCase (sdrop 3 l))
        then Some (stdWeekDay, sdrop 3 l)
        else if hasPrefix l "MST" then Some (stdTZ, sdrop 3 l)
        else None
      else if Ascii.eqb c "0" then
        if (2 <=? len l) && (0x31 <=? sidx l 1) && (sidx l 1 <=? 0x36) then
          let k := sidx l 1 - 0x31 in
          Some (if k =? 0 then stdZeroMonth
                else if k =? 1 then stdZeroDay
                else if k =? 2 then stdZeroHour12
                else if k =? 3 then stdZeroMinute
                else if k =? 4 then stdZeroSecond
                else stdYear, sdrop 2 l)
        else if hasPrefix l "002" then Some (stdZeroYearDay, sdrop 3 l)
        else None
      else if Ascii.eqb c "1" then
        if hasPrefix l "15" then Some (stdHour, sdrop 2 l)
        else Some (stdNumMonth, t)
      else if Ascii.eqb c "2" then
        if hasPrefix l "2006" then Some (stdLongYear, sdrop 4 l)
        else Some (stdDay, t)
      else if Ascii.eqb c "3" then Some (stdHour12, t)
      else if Ascii.eqb c "4" then Some (stdMinute, t)
      else if Ascii.eqb c "5" then Some (stdSecond, t)
      else if Ascii.eqb c "-" then
        if hasPrefix l "-070000" then Some (stdNumSecondsTz, sdrop 7 l)
        else if hasPrefix l "-07:00:00" then Some (stdNumColonSecondsTZ, sdrop 9 l)
        else if hasPrefix l "-0700" then Some (stdNumTZ, sdrop 5 l)
        else if hasPrefix l "-07:00" then Some (stdNumColonTZ, sdrop 6 l)
        else if hasPrefix l "-07" then Some (stdNumShortTZ, sdrop 3 l)
        else None
      else None
  end.

(** [nextStdChunk(layout)]: (prefix, std, suffix); [None] is Go's
    [std == 0], returned with the whole layout as prefix. *)
Fixpoint nextStdChunkFrom (prefix layout : string)
    : string * option std * string :=
  match layout with
  | EmptyString => (prefix, None, EmptyString)
  | String c t =>
      match stdAt layout with
      | Some (s, suffix) => (prefix, Some s, suffix)
      | None => nextStdChunkFrom (prefix ++ String c EmptyString) t
      end
  end.

Definition nextStdChunk (layout : string) : string * option std * string :=
  nextStdChunkFrom EmptyString layout.

(** [cutspace] *)
Fixpoint cutspace (s : string) : string :=
  match s with
  | String " " t => cutspace t
  | _ => s
  end.

(** [skip(value, prefix)]; the boolean is [err != nil].  A space in the
    prefix stands for zero or more spaces of the value: the Go loop then
    cuts the leading spaces of both; [inSpaces] marks the rest of that run
    of spaces in the prefix. *)
Fixpoint skipFrom (inSpaces : bool) (value prefix : string) {struct prefix}
    : string * bool :=
  match prefix with
  | EmptyString => (value, false)
  | String p prefix' =>
      if Ascii.eqb p " " then
        if inSpaces then skipFrom true value prefix'
        else
          match value with
          | String v _ =>
              if negb (Ascii.eqb v " ") then (value, true)
              else skipFrom true (cutspace value) prefix'
          | EmptyString => skipFrom true value prefix'
          end
      else
        match value with
        | EmptyString => (value, true)
        | String v value' =>
            if negb (Ascii.eqb v p) then (value, true)
            else skipFrom false value' prefix'
        end
  end.

Definition skip (value prefix : string) : string * bool :=
  skipFrom false value prefix.

(** [isDigit(s, i)] *)
Definition isDigit (s : string) (i : Z) : bool :=
  if len s <=? i then false
  else (0x30 <=? sidx s i) && (sidx s i <=? 0x39).

(** [getnum(s, fixed)] *)
Definition getnum (s : string) (fixed : bool) : Z * string * bool :=
  if negb (isDigit s 0) then (0, s, true)
  else if negb (isDigit s 1) then
    if fixed then (0, s, true) else (sidx s 0 - 0x30, sdrop 1 s, false)
  else ((sidx s 0 - 0x30) * 10 + (sidx s 1 - 0x30), sdrop 2 s, false).

(** [getnum3(s, fixed)] *)
Definition getnum3 (s : string) (fixed : bool) : Z * string * bool :=
  let step (acc : Z * Z) (i : Z) : Z * Z :=
    if isDigit s i then (fst acc * 10 + (sidx s i - 0x30), i + 1) else acc in
  let a0 := if isDigit s 0 then (sidx s 0 - 0x30, 1) else (0, 0) in
  let a1 := if snd a0 =? 1 then step a0 1 else a0 in
  let a2 := if snd a1 =? 2 then step a1 2 else a1 in
  let '(n, i) := a2 in
  if (i =? 0) || (fixed && negb (i =? 3)) then (0, s, true)
  else (n, dropZ i s, false).

(** [leadingInt(s)]: (x, rem, err). *)
Fixpoint leadingIntFrom (s : string) (x : Z) : Z * string * bool :=
  match s with
  | EmptyString => (x, s, false)
  | String c t =>
      if (b2z c <? 0x30) || (0x39 <? b2z c) then (x, s, false)
      else if 2 ^ 63 / 10 <? x then (0, EmptyString, true)
      else
        let x := uint64 (uint64 (x * 10 + b2z c) - 0x30) in
        if 2 ^ 63 <? x then (0, EmptyString, true)
        else leadingIntFrom t x
  end.

Definition leadingInt (s : string) : Z * string * bool := leadingIntFrom s 0.

(** [atoi(s)]: (x, err). *)
Definition atoi (s : string) : Z * bool :=
  let '(neg, s) :=
    match s with
    | String c t =>
        if Ascii.eqb c "-" then (true, t)
        else if Ascii.eqb c "+" then (false, t)
        else (false, s)
    | EmptyString => (false, s)
    end in
  let '(q, rem, err) := leadingInt s in
  let x := int64 q in
  if err || (0 <? len rem) then (0, true)
  else (if neg then int64 (- x) else x, false).

Definition shortDayNames : list string :=
  ["Sun"; "Mon"; "Tue"; "Wed"; "Thu"; "Fri"; "Sat"].
Definition longDayNames : list string :=
  ["Sunday"; "Monday"; "Tuesday"; "Wednesday"; "Thursday"; "Friday";
   "Saturday"].
Definition shortMonthNames : list string :=
  ["Jan"; "Feb"; "Mar"; "Apr"; "May"; "Jun"; "Jul"; "Aug"; "Sep"; "Oct";
   "Nov"; "Dec"].
Definition longMonthNames : list string :=
  ["January"; "February"; "March"; "April"; "May"; "June"; "July";
   "August"; "September"; "October"; "November"; "December"].

(** [match(s1, s2)]: equal ignoring ASCII case; both have one length. *)
Fixpoint matchFold (s1 s2 : string) : bool :=
  match s1, s2 with
  | String a1 r1, String a2 r2 =>
      let c1 := b2z a1 in
      let c2 := b2z a2 in
      if negb (c1 =? c2) then
        let c1 := Z.lor c1 0x20 in
        let c2 := Z.lor c2 0x20 in
        if negb (c1 =? c2) || (c1 <? 0x61) || (0x7A <? c1) then false
        else matchFold r1 r2
      else matchFold r1 r2
  | _, _ => true
  end.

(** [lookup(tab, val)]: (index, rest, err). *)
Fixpoint lookupFrom (i : Z) (tab : list string) (val : string)
    : Z * string * bool :=
  match tab with
  | [] => (-1, val, true)
  | v :: tab' =>
      if (len v <=? len val) && matchFold (takeZ (len v) val) v
      then (i, dropZ (len v) val, false)
      else lookupFrom (i + 1) tab' val
  end.

Definition lookup_name (tab : list string) (val : string) : Z * string * bool :=
  lookupFrom 0 tab val.

(** [commaOrPeriod] *)
Definition commaOrPeriod (b : Z) : bool := (b =? 0x2E) || (b =? 0x2C).

(** [parseNanoseconds(value, nbytes)]: (ns, rangeErrString, err). *)
Definition parseNanoseconds (value : string) (nbytes : Z) : Z * string * bool :=
  if negb (commaOrPeriod (sidx value 0)) then (0, EmptyString, true) else
  let '(value, nbytes) :=
    if 10 <? nbytes then (takeZ 10 value, 10) else (value, nbytes) in
  let '(ns, err) := atoi (takeZ (nbytes - 1) (sdrop 1 value)) in
  if err then (ns, EmptyString, true)
  else if ns <? 0 then (ns, "fractional second", false)
  else (ns * 10 ^ (10 - nbytes), EmptyString, false).

(** The scan [for ; n < len(value) && isDigit(value, n); n++ {}], begun
    at [n = 2], over [rest = value[n:]]. *)
Fixpoint digitsEnd (rest : string) (n : Z) : Z :=
  match rest with
  | String c t =>
      if (0x30 <=? b2z c) && (b2z c <=? 0x39) then digitsEnd t (n + 1) else n
  | EmptyString => n
  end.

(** [parseSignedOffset(value)] *)
Definition parseSignedOffset (value : string) : Z :=
  let sign := sidx value 0 in
  if negb (sign =? 0x2D) && negb (sign =? 0x2B) then 0 else
  let '(x, rem, err) := leadingInt (sdrop 1 value) in
  if err || String.eqb (sdrop 1 value) rem then 0
  else if 23 <? x then 0
  else len value - len rem.

(** [parseGMT(value)] *)
Definition parseGMT (value : string) : Z :=
  let value := sdrop 3 value in
  if len value =? 0 then 3 else 3 + parseSignedOffset value.

(** The count of leading upper-case letters, at most 6. *)
Fixpoint countUpper (fuel : nat) (value : string) : Z :=
  match fuel, value with
  | S k, String c t =>
      if (b2z c <? 0x41) || (0x5A <? b2z c) then 0 else 1 + countUpper k t
  | _, _ => 0
  end.

(** [parseTimeZone(value)]: (length, ok). *)
Definition parseTimeZone (value : string) : Z * bool :=
  if len value <? 3 then (0, false)
  else if (4 <=? len value) &&
          (String.eqb (stake 4 value) "ChST" || String.eqb (stake 4 value) "MeST")
  then (4, true)
  else if String.eqb (stake 3 value) "GMT" then (parseGMT value, true)
  else if (sidx value 0 =? 0x2B) || (sidx value 0 =? 0x2D) then
    let length := parseSignedOffset value in (length, 0 <? length)
  else
    let nUpper := countUpper 6 value in
    if nUpper =? 5 then
      if sidx value 4 =? 0x54 then (5, true) else (0, false)
    else if nUpper =? 4 then
      if (sidx value 3 =? 0x54) || String.eqb (stake 4 value) "WITA"
      then (4, true) else (0, false)
    else if nUpper =? 3 then (3, true)
    else (0, false).

(** [isLeap], [daysBefore] (days of the year before month [m], for
    [1 <= m <= 13]) and [daysIn]. *)
Definition isLeap (year : Z) : bool :=
  (Z.rem year 4 =? 0) && (negb (Z.rem year 100 =? 0) || (Z.rem year 400 =? 0)).

Definition daysBefore (m : Z) : Z :=
  nth (Z.to_nat (m - 1))
      [0; 31; 59; 90; 120; 151; 181; 212; 243; 273; 304; 334; 365] 0.

Definition daysIn (m year : Z) : Z :=
  if (m =? 2) && isLeap year then 29
  else daysBefore (m + 1) - daysBefore m.

(** A [*time.Location] is modelled by what it yields at the parsed
    instant: the offset in seconds east of UTC and the abbreviation. *)
Record Location : Type := mkLocation {
  loc_name : string;
  loc_offset : Z
}.

Definition time_UTC : Location := mkLocation "UTC" 0.
Definition time_FixedZone (name : string) (offset : Z) : Location :=
  mkLocation name offset.

(** A [time.Time] is modelled by the civil date and clock it shows in its
    own location, its nanoseconds, and that location.  The instant is
    that civil time minus the offset. *)
Record time_Time : Type := mkTime {
  t_year : Z; t_month : Z; t_day : Z;
  t_hour : Z; t_min : Z; t_sec : Z; t_nsec : Z;
  t_loc : Location
}.

(** [time.Date(year, month, day, hour, min, sec, nsec, loc)].  Parse calls
    it after its range checks (month 1..12, day within the month, hour
    below 24, minute and second below 60), where Date normalises nothing. *)
Definition time_Date (year month day hour min sec nsec : Z) (loc : Location)
    : time_Time :=
  mkTime year month day hour min sec nsec loc.

(** The zero [Time{}]: January 1, year 1, 00:00:00 UTC. *)
Definition time_zero : time_Time := time_Date 1 1 1 0 0 0 0 time_UTC.

(** [t.Date()] and [t.Clock()] *)
Definition Time_Date (t : time_Time) : Z * Z * Z := (t_year t, t_month t, t_day t).
Definition Time_Clock (t : time_Time) : Z * Z * Z := (t_hour t, t_min t, t_sec t).

(** The variables of [parse] ("Time being constructed"). *)
Record parseVars : Type := mkVars {
  p_year : Z; p_month : Z; p_day : Z; p_yday : Z;
  p_hour : Z; p_min : Z; p_sec : Z; p_nsec : Z;
  p_z : option Location;
  p_zoneOffset : Z;
  p_zoneName : string
}.

Definition parseVars0 : parseVars :=
  mkVars 0 (-1) (-1) (-1) 0 0 0 0 None (-1) EmptyString.

Definition set_year (v : parseVars) (x : Z) : parseVars :=
  mkVars x (p_month v) (p_day v) (p_yday v) (p_hour v) (p_min v) (p_sec v)
         (p_nsec v) (p_z v) (p_zoneOffset v) (p_zoneName v).
Definition set_month (v : parseVars) (x : Z) : parseVars :=
  mkVars (p_year v) x (p_day v) (p_yday v) (p_hour v) (p_min v) (p_sec v)
         (p_nsec v) (p_z v) (p_zoneOffset v) (p_zoneName v).
Definition set_day (v : parseVars) (x : Z) : parseVars :=
  mkVars (p_year v) (p_month v) x (p_yday v) (p_hour v) (p_min v) (p_sec v)
         (p_nsec v) (p_z v) (p_zoneOffset v) (p_zoneName v).
Definition set_yday (v : parseVars) (x : Z) : parseVars :=
  mkVars (p_year v) (p_month v) (p_day v) x (p_hour v) (p_min v) (p_sec v)
         (p_nsec v) (p_z v) (p_zoneOffset v) (p_zoneName v).
Definition set_hour (v : parseVars) (x : Z) : parseVars :=
  mkVars (p_year v) (p_month v) (p_day v) (p_yday v) x (p_min v) (p_sec v)
         (p_nsec v) (p_z v) (p_zoneOffset v) (p_zoneName v).
Definition set_min (v : parseVars) (x : Z) : parseVars :=
  mkVars (p_year v) (p_month v) (p_day v) (p_yday v) (p_hour v) x (p_sec v)
         (p_nsec v) (p_z v) (p_zoneOffset v) (p_zoneName v).
Definition set_sec (v : parseVars) (x : Z) : parseVars :=
  mkVars (p_year v) (p_month v) (p_day v) (p_yday v) (p_hour v) (p_min v) x
         (p_nsec v) (p_z v) (p_zoneOffset v) (p_zoneName v).
Definition set_nsec (v : parseVars) (x : Z) : parseVars :=
  mkVars (p_year v) (p_month v) (p_day v) (p_yday v) (p_hour v) (p_min v)
         (p_sec v) x (p_z v) (p_zoneOffset v) (p_zoneName v).
Definition set_z (v : parseVars) (x : option Location) : parseVars :=
  mkVars (p_year v) (p_month v) (p_day v) (p_yday v) (p_hour v) (p_min v)
         (p_sec v) (p_nsec v) x (p_zoneOffset v) (p_zoneName v).
Definition set_zoneOffset (v : parseVars) (x : Z) : parseVars :=
  mkVars (p_year v) (p_month v) (p_day v) (p_yday v) (p_hour v) (p_min v)
         (p_sec v) (p_nsec v) (p_z v) x (p_zoneName v).
Definition set_zoneName (v : parseVars) (x : string) : parseVars :=
  mkVars (p_year v) (p_month v) (p_day v) (p_yday v) (p_hour v) (p_min v)
         (p_sec v) (p_nsec v) (p_z v) (p_zoneOffset v) x.

(** What one case of the switch in [parse] leaves behind: the variables,
    the rest of the value, [rangeErrString] and whether [err != nil]. *)
Record elemResult : Type := mkElem {
  e_vars : parseVars;
  e_value : string;
  e_rangeErr : string;
  e_err : bool
}.

Definition elemBad (v : parseVars) (value : string) : elemResult :=
  mkElem v value EmptyString true.

(** The numeric zone cases: the split of [value] into sign, hour, minute
    and seconds by the form of the element, then the offset. *)
Definition parseNumTZ (s : std) (v : parseVars) (value : string) : elemResult :=
  let split : option (string * string * string * string * string) :=
    match s with
    | stdNumColonTZ =>
        if len value <? 6 then None
        else if negb (sidx value 3 =? 0x3A) then None
        else Some (stake 1 value, stake 2 (sdrop 1 value),
                   stake 2 (sdrop 4 value), "00", sdrop 6 value)
    | stdNumShortTZ =>
        if len value <? 3 then None
        else Some (stake 1 value, stake 2 (sdrop 1 value), "00", "00",
                   sdrop 3 value)
    | stdNumColonSecondsTZ =>
        if len value <? 9 then None
        else if negb (sidx value 3 =? 0x3A) || negb (sidx value 6 =? 0x3A)
        then None
        else Some (stake 1 value, stake 2 (sdrop 1 value),
                   stake 2 (sdrop 4 value), stake 2 (sdrop 7 value),
                   sdrop 9 value)
    | stdNumSecondsTz =>
        if len value <? 7 then None
        else Some (stake 1 value, stake 2 (sdrop 1 value),
                   stake 2 (sdrop 3 value), stake 2 (sdrop 5 value),
                   sdrop 7 value)
    | _ =>
        if len value <? 5 then None
        else Some (stake 1 value, stake 2 (sdrop 1 value),
                   stake 2 (sdrop 3 value), "00", sdrop 5 value)
    end in
  match split with
  | None => elemBad v value
  | Some (sign, hour, min, seconds, value) =>
      let '(hr, _, err) := getnum hour true in
      let '(mm, err) :=
        if negb err then let '(mm, _, e) := getnum min true in (mm, e)
        else (0, err) in
      let '(ss, err) :=
        if negb err then let '(ss, _, e) := getnum seconds true in (ss, e)
        else (0, err) in
      let rangeErr := if 24 <? hr then "time zone offset hour" else "" in
      let rangeErr := if 60 <? mm then "time zone offset minute" else rangeErr in
      let rangeErr := if 60 <? ss then "time zone offset second" else rangeErr in
      let zoneOffset := (hr * 60 + mm) * 60 + ss in
      if sidx sign 0 =? 0x2B
      then mkElem (set_zoneOffset v zoneOffset) value rangeErr err
      else if sidx sign 0 =? 0x2D
      then mkElem (set_zoneOffset v (- zoneOffset)) value rangeErr err
      else mkElem (set_zoneOffset v zoneOffset) value rangeErr true
  end.

(** One case of [switch std & stdMask] in [parse]; [layout] is the layout
    after the element (the seconds case looks ahead in it). *)
Definition parseElem (s : std) (layout : string) (v : parseVars)
    (value : string) : elemResult :=
  match s with
  | stdYear =>
      if len value <? 2 then elemBad v value else
      let '(year, err) := atoi (stake 2 value) in
      let value := sdrop 2 value in
      if err then mkElem (set_year v year) value "" true
      else mkElem (set_year v (if 69 <=? year then year + 1900 else year + 2000))
                  value "" false
  | stdLongYear =>
      if (len value <? 4) || negb (isDigit value 0) then elemBad v value else
      let '(year, err) := atoi (stake 4 value) in
      mkElem (set_year v year) (sdrop 4 value) "" err
  | stdMonth =>
      let '(month, value, err) := lookup_name shortMonthNames value in
      mkElem (set_month v (month + 1)) value "" err
  | stdLongMonth =>
      let '(month, value, err) := lookup_name longMonthNames value in
      mkElem (set_month v (month + 1)) value "" err
  | stdNumMonth | stdZeroMonth =>
      let '(month, value, err) := getnum value (std_eqb s stdZeroMonth) in
      mkElem (set_month v month) value
             (if negb err && ((month <=? 0) || (12 <? month)) then "month" else "")
             err
  | stdWeekDay =>
      let '(_, value, err) := lookup_name shortDayNames value in
      mkElem v value "" err
  | stdLongWeekDay =>
      let '(_, value, err) := lookup_name longDayNames value in
      mkElem v value "" err
  | stdDay | stdZeroDay =>
      let '(day, value, err) := getnum value (std_eqb s stdZeroDay) in
      mkElem (set_day v day) value "" err
  | stdZeroYearDay =>
      let '(yday, value, err) := getnum3 value true in
      mkElem (set_yday v yday) value "" err
  | stdHour =>
      let '(hour, value, err) := getnum value false in
      mkElem (set_hour v hour) value
             (if (hour <? 0) || (24 <=? hour) then "hour" else "") err
  | stdHour12 | stdZeroHour12 =>
      let '(hour, value, err) := getnum value (std_eqb s stdZeroHour12) in
      mkElem (set_hour v hour) value
             (if (hour <? 0) || (12 <? hour) then "hour" else "") err
  | stdMinute | stdZeroMinute =>
      let '(min, value, err) := getnum value (std_eqb s stdZeroMinute) in
      mkElem (set_min v min) value
             (if (min <? 0) || (60 <=? min) then "minute" else "") err
  | stdSecond | stdZeroSecond =>
      let '(sec, value, err) := getnum value (std_eqb s stdZeroSecond) in
      let v := set_sec v sec in
      if err then mkElem v value "" true
      else if (sec <? 0) || (60 <=? sec) then mkElem v value "second" false
      else if (2 <=? len value) && commaOrPeriod (sidx value 0)
              && isDigit value 1
      then
        (* the layout of this model has no fractional-second element, so
           a fraction in the value is read here *)
        let n := digitsEnd (sdrop 2 value) 2 in
        let '(nsec, rangeErr, err) := parseNanoseconds value n in
        mkElem (set_nsec v nsec) (dropZ n value) rangeErr err
      else mkElem v value "" false
  | stdNumTZ | stdNumShortTZ | stdNumColonTZ | stdNumSecondsTz
  | stdNumColonSecondsTZ => parseNumTZ s v value
  | stdTZ =>
      if (3 <=? len value) && String.eqb (stake 3 value) "UTC"
      then mkElem (set_z v (Some time_UTC)) (sdrop 3 value) "" false
      else
        let '(n, ok) := parseTimeZone value in
        if negb ok then elemBad v value
        else mkElem (set_zoneName v (takeZ n value)) (dropZ n value) "" false
  end.

(** [quote(s)] of package time: the value between double quotes, with a
    backslash before a double quote or backslash and every byte below
    0x20 or from 0x80 up as a [\x] escape. *)
Definition lowerhex (n : Z) : ascii :=
  if n <? 10 then z2b (0x30 + n) else z2b (0x61 + n - 10).

Fixpoint quoteBody (s : string) : string :=
  match s with
  | EmptyString => EmptyString
  | String c t =>
      let b := b2z c in
      if (0x80 <=? b) || (b <? 0x20) then
        String "\" (String "x" (String (lowerhex (Z.shiftr b 4))
          (String (lowerhex (Z.land b 0xF)) (quoteBody t))))
      else if Ascii.eqb c "034" || Ascii.eqb c "\" then
        String "\" (String c (quoteBody t))
      else String c (quoteBody t)
  end.

Definition time_quote (s : string) : string :=
  String "034" (quoteBody s ++ String "034" EmptyString).

(** The loop of [parse], "each iteration processes one std value":
    [inl (vars, value)] when the layout is used up, [inr e] on the first
    error.  Every iteration but the last shortens the layout. *)
Fixpoint parseLoop (fuel : nat) (alayout avalue layout value : string)
    (v : parseVars) : (parseVars * string) + error :=
  match fuel with
  | O => inr (ParseError alayout avalue layout value "")
  | S k =>
      let '(prefix, st, suffix) := nextStdChunk layout in
      let stdstr :=
        takeZ (len layout - len suffix - len prefix) (dropZ (len prefix) layout) in
      let '(value, err) := skip value prefix in
      if err then inr (ParseError alayout avalue prefix value "") else
      match st with
      | None =>
          if negb (len value =? 0)
          then inr (ParseError alayout avalue "" value
                      (": extra text: " ++ time_quote value))
          else inl (v, value)
      | Some s =>
          let hold := value in
          let r := parseElem s suffix v value in
          if negb (String.eqb (e_rangeErr r) "")
          then inr (ParseError alayout avalue stdstr (e_value r)
                      (": " ++ e_rangeErr r ++ " out of range"))
          else if e_err r
          then inr (ParseError alayout avalue stdstr hold "")
          else parseLoop k alayout avalue suffix (e_value r) (e_vars r)
      end
  end.

(** [parse(layout, value, UTC, Local)], that is [time.Parse].

    After the loop: the day of the year is turned into month and day,
    the day is validated, and the Time is built in UTC (explicit "UTC" or
    no zone), or at the parsed offset, or for the parsed abbreviation.
    Go first asks the host's Local zone whether it has the parsed offset
    (or abbreviation) at that instant and then uses Local; the civil time
    and the offset are the same either way when an offset was parsed,
    and the model builds the fixed zone. *)
Definition time_Parse (layout value : string) : time_Time * option error :=
  match parseLoop (S (String.length layout)) layout value layout value parseVars0 with
  | inr e => (time_zero, Some e)
  | inl (v, rest) =>
      let fail (msg : string) : time_Time * option error :=
        (time_zero, Some (ParseError layout value "" rest msg)) in
      let year := p_year v in
      let finish (month day : Z) : time_Time * option error :=
        if (day <? 1) || (daysIn month year <? day)
        then fail ": day out of range"
        else
          match p_z v with
          | Some z =>
              (time_Date year month day (p_hour v) (p_min v) (p_sec v)
                         (p_nsec v) z, None)
          | None =>
              if negb (p_zoneOffset v =? -1) then
                (time_Date year month day (p_hour v) (p_min v) (p_sec v)
                           (p_nsec v)
                           (time_FixedZone (p_zoneName v) (p_zoneOffset v)), None)
              else if negb (String.eqb (p_zoneName v) "") then
                let offset :=
                  if (3 <? len (p_zoneName v))
                     && String.eqb (stake 3 (p_zoneName v)) "GMT"
                  then fst (atoi (sdrop 3 (p_zoneName v))) * 3600
                  else 0 in
                (time_Date year month day (p_hour v) (p_min v) (p_sec v)
                           (p_nsec v) (time_FixedZone (p_zoneName v) offset), None)
              else
                (time_Date year month day (p_hour v) (p_min v) (p_sec v)
                           (p_nsec v) time_UTC, None)
          end in
      let yday := p_yday v in
      if 0 <=? yday then
        let '(m, d, yday) :=
          if isLeap year then
            if yday =? 31 + 29 then (2, 29, yday)
            else if 31 + 29 <? yday then (0, 0, yday - 1)
            else (0, 0, yday)
          else (0, 0, yday) in
        if (yday <? 1) || (365 <? yday)
        then fail ": day-of-year out of range" else
        let '(m, d) :=
          if m =? 0 then
            let m := (yday - 1) / 31 + 1 in
            let m := if daysBefore (m + 1) <? yday then m + 1 else m in
            (m, yday - daysBefore m)
          else (m, d) in
        if (0 <=? p_month v) && negb (p_month v =? m)
        then fail ": day-of-year does not match month"
        else if (0 <=? p_day v) && negb (p_day v =? d)
        then fail ": day-of-year does not match day"
        else finish m d
      else
        finish (if p_month v <? 0 then 1 else p_month v)
               (if p_day v <? 0 then 1 else p_day v)
  end.

(** ** converter.go *)

(** Floating-point numbers are kept as their IEEE 754 bit patterns. *)
Definition float64 : Type := Z.
Definition float32 : Type := Z.

(** Modelled from the spec: the struct type [Date] of package monetdb is
    declared outside converter.go; the spec gives it as
    [Date{year, month, day}], and converter.go builds it from
    [t.Date()] and reads its fields [Year], [Month] and [Day]. *)
Record Date : Type := mkDate { Year : Z; Month : Z; Day : Z }.

(** Modelled from the spec: the struct type [Time] of package monetdb is
    declared outside converter.go; the spec gives it as
    [Time{hour, minute, second}], and converter.go builds it from
    [t.Clock()] and reads its fields [Hour], [Min] and [Sec]. *)
Record Time : Type := mkClock { Hour : Z; Min : Z; Sec : Z }.

(** [driver.Value]: the dynamic types converter.go produces or consumes. *)
Inductive Value : Type :=
| VNil
| VString (s : string)
| VBytes (b : string)
| VFloat64 (f : float64)
| VFloat32 (f : float32)
| VInt8 (i : Z)
| VInt16 (i : Z)
| VInt32 (i : Z)
| VInt64 (i : Z)
| VBool (b : bool)
| VDate (d : Date)
| VTime (t : Time)
| VTimestamp (t : time_Time).

Definition mdb_CHAR := "char".
Definition mdb_VARCHAR := "varchar".
Definition mdb_CLOB := "clob".
Definition mdb_BLOB := "blob".
Definition mdb_DECIMAL := "decimal".
Definition mdb_SMALLINT := "smallint".
Definition mdb_INT := "int".
Definition mdb_BIGINT := "bigint".
Definition mdb_HUGEINT := "hugeint".
Definition mdb_SERIAL := "serial".
Definition mdb_REAL := "real".
Definition mdb_DOUBLE := "double".
Definition mdb_BOOLEAN := "boolean".
Definition mdb_DATE := "date".
Definition mdb_TIME := "time".
Definition mdb_TIMESTAMP := "timestamp".
Definition mdb_INTERVAL := "interval".
Definition mdb_UUID := "uuid".

Definition mdb_MONTH_INTERVAL := "month_interval".
Definition mdb_SEC_INTERVAL := "sec_interval".
Definition mdb_WRD := "wrd".
Definition mdb_TINYINT := "tinyint".

Definition mdb_SHORTINT := "shortint".
Definition mdb_MEDIUMINT := "mediumint".
Definition mdb_LONGINT := "longint".
Definition mdb_FLOAT := "float".
Definition mdb_TIMESTAMPTZ := "timestamptz".

(** full names and aliases *)
Definition mdb_CHARACTER := mdb_CHAR.
Definition mdb_CHARACTER_VARYING := mdb_VARCHAR.
Definition mdb_CHARACHTER_LARGE_OBJECT := mdb_CLOB.
Definition mdb_BINARY_LARGE_OBJECT := mdb_BLOB.
Definition mdb_NUMERIC := mdb_DECIMAL.
Definition mdb_DOUBLE_PRECISION := mdb_DOUBLE.

Definition timeFormats : list string :=
  [ "2006-01-02";
    "2006-01-02 15:04:05";
    "2006-01-02 15:04:05 -0700";
    "2006-01-02 15:04:05 -0700 MST";
    "Mon Jan 2 15:04:05 -0700 MST 2006";
    "15:04:05" ].

Abbreviation toGoConverter := (string -> outcome (Value * option error)).

(** The loop of [unquote]: [UnquoteChar] takes one character or escape
    off [s] and its bytes are appended to [buf].  [None] stands for a
    loop cut short by [fuel]; [String.length s] steps are enough
    (lemma [unquoteLoop_fuel]).  (On an error the Go code also
    prints a diagnostic line, which is output only.) *)
Fixpoint unquoteLoop (fuel : nat) (s buf : string)
    : option (string * option error) :=
  match s with
  | EmptyString => Some (buf, None)
  | String _ _ =>
      match fuel with
      | O => None
      | S k =>
          let '(c, multibyte, ss, err) := strconv_UnquoteChar s "'" in
          match err with
          | Some e => Some (EmptyString, Some e)
          | None =>
              if (c <? utf8_RuneSelf) || negb multibyte
              then unquoteLoop k ss (buf ++ String (z2b c) EmptyString)
              else unquoteLoop k ss (buf ++ utf8_EncodeRune c)
          end
      end
  end.

Definition unquote (s : string) : string * option error :=
  if negb (contains s "\") then (s, None)
  else
    match unquoteLoop (String.length s) s EmptyString with
    | Some r => r
    | None => (EmptyString, Some (StrconvError ErrSyntax))
    end.

Definition stripNoQuote : toGoConverter := fun v =>
  obind (slice v 0 (len v)) (fun w =>
  let '(s, err) := unquote (strings_TrimSpace w) in
  Ret (VString s, err)).

Definition strip : toGoConverter := fun v =>
  obind (slice v 1 (len v - 1)) (fun w =>
  let '(s, err) := unquote (strings_TrimSpace w) in
  Ret (VString s, err)).

Definition toByteArray : toGoConverter := fun v =>
  obind (slice v 1 (len v - 1)) (fun w => Ret (VBytes w, None)).

Definition isNil (err : option error) : bool :=
  match err with None => true | Some _ => false end.

Definition toInt8 : toGoConverter := fun v =>
  let '(i, err) := strconv_ParseInt v 10 8 in
  let r := if isNil err then (i + 2 ^ 7) mod 2 ^ 8 - 2 ^ 7 else 0 in
  Ret (VInt8 r, err).

Definition toInt16 : toGoConverter := fun v =>
  let '(i, err) := strconv_ParseInt v 10 16 in
  let r := if isNil err then (i + 2 ^ 15) mod 2 ^ 16 - 2 ^ 15 else 0 in
  Ret (VInt16 r, err).

Definition toInt32 : toGoConverter := fun v =>
  let '(i, err) := strconv_ParseInt v 10 32 in
  let r := if isNil err then int32 i else 0 in
  Ret (VInt32 r, err).

Definition toInt64 : toGoConverter := fun v =>
  let '(i, err) := strconv_ParseInt v 10 64 in
  let r := if isNil err then int64 i else 0 in
  Ret (VInt64 r, err).

(** [parseTime]: the named results start as the zero Time and nil and
    hold the outcome of the last [time.Parse] tried. *)
Fixpoint parseTimeLoop (formats : list string) (v : string)
    (t : time_Time) (err : option error) : time_Time * option error :=
  match formats with
  | [] => (t, err)
  | f :: formats' =>
      let '(t, err) := time_Parse f v in
      if isNil err then (t, err) else parseTimeLoop formats' v t err
  end.

Definition parseTime (v : string) : time_Time * option error :=
  parseTimeLoop timeFormats v time_zero None.

Definition toBool : toGoConverter := fun v =>
  let '(b, err) := strconv_ParseBool v in Ret (VBool b, err).

Definition toDate : toGoConverter := fun v =>
  let '(t, err) := parseTime v in
  if negb (isNil err) then Ret (VNil, err)
  else
    let '(year, month, day) := Time_Date t in
    Ret (VDate (mkDate year month day), None).

Definition toTime : toGoConverter := fun v =>
  let '(t, err) := parseTime v in
  if negb (isNil err) then Ret (VNil, err)
  else
    let '(hour, min, sec) := Time_Clock t in
    Ret (VTime (mkClock hour min sec), None).

Definition toTimestamp : toGoConverter := fun v =>
  let '(t, err) := parseTime v in Ret (VTimestamp t, err).

Definition toTimestampTz : toGoConverter := fun v =>
  let '(t, err) := parseTime v in Ret (VTimestamp t, err).

Section Converter.

(** [ParseFloat] is [strconv.ParseFloat(s, bitSize)], [toFloat32] is the
    conversion [float32(x)] of a float64, and [Sprint] is
    [fmt.Sprintf("%v", v)] for a value that is not a string; they are taken
    as given: decimal-to-binary rounding and fmt's verbs are outside
    this development. *)
Variable ParseFloat : string -> Z -> float64 * option error.
Variable toFloat32 : float64 -> float32.
Variable Sprint : Value -> string.

Definition toDouble : toGoConverter := fun v =>
  let '(f, err) := ParseFloat v 64 in Ret (VFloat64 f, err).

Definition toFloat : toGoConverter := fun v =>
  let '(i, err) := ParseFloat v 32 in
  let r := if isNil err then toFloat32 i else 0 in
  Ret (VFloat32 r, err).

Definition toGoMappers : gmap string toGoConverter :=
  list_to_map
    [ (mdb_CHAR, strip);
      (mdb_VARCHAR, strip);
      (mdb_CLOB, strip);
      (mdb_BLOB, toByteArray);
      (mdb_DECIMAL, toDouble);
      (mdb_SMALLINT, toInt16);
      (mdb_INT, toInt32);
      (mdb_WRD, toInt32);
      (mdb_BIGINT, toInt64);
      (mdb_HUGEINT, toInt64);
      (mdb_SERIAL, toInt64);
      (mdb_REAL, toFloat);
      (mdb_DOUBLE, toDouble);
      (mdb_BOOLEAN, toBool);
      (mdb_DATE, toDate);
      (mdb_TIME, toTime);
      (mdb_TIMESTAMP, toTimestamp);
      (mdb_TIMESTAMPTZ, toTimestampTz);
      (mdb_INTERVAL, strip);
      (mdb_MONTH_INTERVAL, strip);
      (mdb_SEC_INTERVAL, strip);
      (mdb_TINYINT, toInt8);
      (mdb_SHORTINT, toInt16);
      (mdb_MEDIUMINT, toInt32);
      (mdb_LONGINT, toInt64);
      (mdb_FLOAT, toFloat);
      (mdb_UUID, stripNoQuote) ].

(** [fmt.Sprintf("%v", v)]: a string is rendered as itself. *)
Definition fmt_Sprintf_v (v : Value) : string :=
  match v with
  | VString s => s
  | _ => Sprint v
  end.

Definition toQuotedString (v : Value) : string * option error :=
  let s := fmt_Sprintf_v v in
  let s := strings_Replace s "\" "\\" (-1) in
  let s := strings_Replace s "'" "\'" (-1) in
  ("'" ++ s ++ "'", None).

Definition toNull (v : Value) : string * option error := ("NULL", None).

Definition convertToGo (value dataType : string)
    : outcome (Value * option error) :=
  match toGoMappers !! dataType with
  | Some mapper =>
      let value := strings_TrimSpace value in
      mapper value
  | None => Ret (VNil, Some (Errorf ("Type not supported: " ++ dataType)))
  end.

End Converter.

(** ** fmt: the integer verbs

    [fmtInteger] for base 10 as [%v] and [%d] reach it: [zeroWid] is
    [Some w] for the verb [%0wd] (zero flag and width [w]) and [None]
    without flags.  The digits are written right to left; the buffer of
    package fmt is always long enough for the widths used here.  The value
    is an [int], 64 bits wide. *)

(** [for u >= 10 { i--; next := u / 10; buf[i] = byte('0' + u - next*10); u = next }]
    and then [buf[i] = digits[u]].  A uint64 has at most 20 decimal
    digits. *)
Fixpoint fmtDigits (fuel : nat) (u : Z) (buf : string) : string :=
  match fuel with
  | O => buf
  | S k =>
      if 10 <=? u then
        let next := u / 10 in
        fmtDigits k next (String (z2b (0x30 + u - next * 10)) buf)
      else String (z2b (0x30 + u)) buf
  end.

(** [for i > 0 && prec > len(buf)-i { i--; buf[i] = '0' }] *)
Fixpoint padZeros (n : nat) (buf : string) : string :=
  match n with
  | O => buf
  | S k => padZeros k (String "0" buf)
  end.

Definition fmtInteger (a : Z) (zeroWid : option Z) : string :=
  let negative := a <? 0 in
  let u := uint64 (if negative then - a else a) in
  let prec :=
    match zeroWid with
    | Some wid => if negative then wid - 1 else wid
    | None => 0
    end in
  let buf := fmtDigits 20 u EmptyString in
  let buf := padZeros (Z.to_nat (prec - len buf)) buf in
  if negative then String "-" buf else buf.

(** ** converter.go: the encoder *)

(** A [driver.Value] handed to the encoder: a value of the codec, a Go
    [int], or a value of any other type, of which the encoder sees the
    name of its type ([reflect.TypeOf(v).String()]) and its [%v]
    rendering. *)
Inductive driverValue : Type :=
| DV (v : Value)
| DInt (i : Z)
| DOther (typ : string) (rendering : string).

(** [reflect.TypeOf(value)], then ["nil"] or [t.String()]. *)
Definition typeName (value : driverValue) : string :=
  match value with
  | DV VNil => "nil"
  | DV (VString _) => "string"
  | DV (VBytes _) => "[]uint8"
  | DV (VFloat64 _) => "float64"
  | DV (VFloat32 _) => "float32"
  | DV (VInt8 _) => "int8"
  | DV (VInt16 _) => "int16"
  | DV (VInt32 _) => "int32"
  | DV (VInt64 _) => "int64"
  | DV (VBool _) => "bool"
  | DV (VDate _) => "monetdb.Date"
  | DV (VTime _) => "monetdb.Time"
  | DV (VTimestamp _) => "time.Time"
  | DInt _ => "int"
  | DOther typ _ => typ
  end.

Abbreviation toMonetConverter := (driverValue -> string * option error).

Section Encoder.

(** As in the decoder, [Sprint] is [fmt.Sprintf("%v", v)] for the values
    whose rendering is left open: floating-point numbers, [time.Time],
    byte slices and the two structs. *)
Variable Sprint : Value -> string.

(** [fmt.Sprintf("%v", v)] on integers, booleans and nil. *)
Definition Sprint_known (v : Value) : string :=
  match v with
  | VInt8 i | VInt16 i | VInt32 i | VInt64 i => fmtInteger i None
  | VBool b => if b then "true" else "false"
  | VNil => "<nil>"
  | _ => Sprint v
  end.

(** [fmt.Sprintf("%v", v)] on a value handed to the encoder. *)
Definition render (value : driverValue) : string :=
  match value with
  | DV v => fmt_Sprintf_v Sprint_known v
  | DInt i => fmtInteger i None
  | DOther _ r => r
  end.

Definition toString : toMonetConverter := fun v => (render v, None).

(** [toQuotedString] on a value handed to the encoder. *)
Definition toQuotedStringD : toMonetConverter := fun v =>
  match v with
  | DV w => toQuotedString Sprint_known w
  | _ => toQuotedString Sprint_known (VString (render v))
  end.

Definition toNullD : toMonetConverter := fun v =>
  match v with
  | DV w => toNull w
  | _ => toNull VNil
  end.

Definition toByteString : toMonetConverter := fun v =>
  match v with
  | DV (VBytes val) => toQuotedString Sprint_known (VString val)
  | _ => (EmptyString, Some (Errorf "Unsupported type"))
  end.

Definition toDateTimeString : toMonetConverter := fun v =>
  match v with
  | DV (VTime val) =>
      toQuotedString Sprint_known
        (VString (fmtInteger (Hour val) (Some 2) ++ ":"
                  ++ fmtInteger (Min val) (Some 2) ++ ":"
                  ++ fmtInteger (Sec val) (Some 2)))
  | DV (VDate val) =>
      toQuotedString Sprint_known
        (VString (fmtInteger (Year val) (Some 4) ++ "-"
                  ++ fmtInteger (Month val) (Some 2) ++ "-"
                  ++ fmtInteger (Day val) (Some 2)))
  | _ => (EmptyString, Some (Errorf "Unsupported type"))
  end.

Definition toMonetMappers : gmap string toMonetConverter :=
  list_to_map
    [ ("int", toString);
      ("int8", toString);
      ("int16", toString);
      ("int32", toString);
      ("int64", toString);
      ("float", toString);
      ("float32", toString);
      ("float64", toString);
      ("bool", toString);
      ("string", toQuotedStringD);
      ("nil", toNullD);
      ("[]uint8", toByteString);
      ("time.Time", toQuotedStringD);
      ("monetdb.Time", toDateTimeString);
      ("monetdb.Date", toDateTimeString) ].

Definition convertToMonet (value : driverValue) : string * option error :=
  let n := typeName value in
  match toMonetMappers !! n with
  | Some mapper => mapper value
  | None => (EmptyString, Some (Errorf ("Type not supported: " ++ n)))
  end.

End Encoder.

(** ** Vocabulary of the properties *)

(** The keys of the decode table. *)
Definition knownTags : list string :=
  [ mdb_CHAR; mdb_VARCHAR; mdb_CLOB; mdb_BLOB; mdb_DECIMAL; mdb_SMALLINT;
    mdb_INT; mdb_WRD; mdb_BIGINT; mdb_HUGEINT; mdb_SERIAL; mdb_REAL;
    mdb_DOUBLE; mdb_BOOLEAN; mdb_DATE; mdb_TIME; mdb_TIMESTAMP;
    mdb_TIMESTAMPTZ; mdb_INTERVAL; mdb_MONTH_INTERVAL; mdb_SEC_INTERVAL;
    mdb_TINYINT; mdb_SHORTINT; mdb_MEDIUMINT; mdb_LONGINT; mdb_FLOAT;
    mdb_UUID ].

(** The spelled-out type names of which the alias constants are the
    identifiers. *)
Definition fullNames : list string :=
  [ "character"; "character_varying"; "character_large_object";
    "charachter_large_object"; "binary_large_object"; "numeric";
    "double_precision" ].

(** The elements of a layout, in order. *)
Fixpoint layoutElemsFrom (fuel : nat) (layout : string) : list std :=
  match fuel with
  | O => []
  | S k =>
      match nextStdChunk layout with
      | (_, Some s, suffix) => s :: layoutElemsFrom k suffix
      | (_, None, _) => []
      end
  end.

Definition layoutElems (layout : string) : list std :=
  layoutElemsFrom (S (String.length layout)) layout.

Definition hasElem (layout : string) (s : std) : bool :=
  existsb (std_eqb s) (layoutElems layout).

Definition hasDate (layout : string) : bool :=
  hasElem layout stdLongYear && hasElem layout stdZeroMonth
  && hasElem layout stdZeroDay.
Definition hasClock (layout : string) : bool :=
  hasElem layout stdHour && hasElem layout stdZeroMinute
  && hasElem layout stdZeroSecond.
Definition hasZoneName (layout : string) : bool := hasElem layout stdTZ.

(** The order of the layout list in the spec's words: it begins with a
    pattern of date plus time plus zone name, and no pattern has more
    elements than one before it. *)
Definition spec_most_specific_first (formats : list string) : Prop :=
  (exists f rest, formats = f :: rest /\
     hasDate f = true /\ hasClock f = true /\ hasZoneName f = true) /\
  (forall i j f g, (i < j)%nat ->
     formats !! i = Some f -> formats !! j = Some g ->
     (List.length (layoutElems g) <= List.length (layoutElems f))%nat).

(** The tokens ParseBool accepts. *)
Definition boolTrue : list string := ["1"; "t"; "T"; "true"; "TRUE"; "True"].
Definition boolFalse : list string := ["0"; "f"; "F"; "false"; "FALSE"; "False"].

(** The tags whose rule slices off the first and the last byte. *)
Definition strippedTags : list string :=
  [ mdb_CHAR; mdb_VARCHAR; mdb_CLOB; mdb_INTERVAL; mdb_MONTH_INTERVAL;
    mdb_SEC_INTERVAL; mdb_BLOB ].

(** The escaper's output without the outer quote characters. *)
Definition escape_body (Sprint : Value -> string) (s : string)
    : string :=
  let q := fst (toQuotedString Sprint (VString s)) in
  takeZ (len q - 2) (sdrop 1 q).

(** Byte by byte: a backslash becomes two backslashes, a single quote
    becomes a backslash and the quote, any other byte stays. *)
Definition escapeByte (c : ascii) : string :=
  if Ascii.eqb c "\" then "\\"
  else if Ascii.eqb c "'" then "\'"
  else String c EmptyString.

Fixpoint escapeEach (s : string) : string :=
  match s with
  | EmptyString => EmptyString
  | String c t => escapeByte c ++ escapeEach t
  end.

(** Base-10 tokens: an optional sign and one or more decimal digits. *)
Inductive sign : Type := NoSign | PlusSign | MinusSign.
Inductive digit : Type := D0 | D1 | D2 | D3 | D4 | D5 | D6 | D7 | D8 | D9.

Definition digitVal (d : digit) : Z :=
  match d with
  | D0 => 0 | D1 => 1 | D2 => 2 | D3 => 3 | D4 => 4
  | D5 => 5 | D6 => 6 | D7 => 7 | D8 => 8 | D9 => 9
  end.

Definition digitByte (d : digit) : ascii := z2b (0x30 + digitVal d).

Definition signText (sg : sign) : string :=
  match sg with NoSign => "" | PlusSign => "+" | MinusSign => "-" end.

Fixpoint digitsText (ds : list digit) : string :=
  match ds with
  | [] => EmptyString
  | d :: ds' => String (digitByte d) (digitsText ds')
  end.

(** The number the digits [ds] denote after the digits already read as [acc]. *)
Fixpoint digitsValue (ds : list digit) (acc : Z) : Z :=
  match ds with
  | [] => acc
  | d :: ds' => digitsValue ds' (acc * 10 + digitVal d)
  end.

Definition tokenText (sg : sign) (d : digit) (ds : list digit) : string :=
  signText sg ++ digitsText (d :: ds).

Definition tokenValue (sg : sign) (d : digit) (ds : list digit) : Z :=
  match sg with
  | MinusSign => - digitsValue (d :: ds) 0
  | _ => digitsValue (d :: ds) 0
  end.

(** The range of a signed integer of [w] bits. *)
Definition inRange (w z : Z) : bool :=
  (- 2 ^ (w - 1) <=? z) && (z <? 2 ^ (w - 1)).

(** The integer tags with the width and the Go type of their rule. *)
Definition intFamily : list (string * Z * (Z -> Value)) :=
  [ (mdb_TINYINT, 8, VInt8);
    (mdb_SMALLINT, 16, VInt16); (mdb_SHORTINT, 16, VInt16);
    (mdb_INT, 32, VInt32); (mdb_WRD, 32, VInt32); (mdb_MEDIUMINT, 32, VInt32);
    (mdb_BIGINT, 64, VInt64); (mdb_HUGEINT, 64, VInt64);
    (mdb_SERIAL, 64, VInt64); (mdb_LONGINT, 64, VInt64) ].

(** Well-formed UTF-8 sequences of two, three and four bytes (Unicode,
    table 3-7), on the byte values. *)
Definition wf2 (b0 b1 : Z) : Prop :=
  0xC2 <= b0 <= 0xDF /\ 0x80 <= b1 <= 0xBF.

Definition wf3 (b0 b1 b2 : Z) : Prop :=
  0xE0 <= b0 <= 0xEF /\ 0x80 <= b1 <= 0xBF
  /\ (b0 = 0xE0 -> 0xA0 <= b1) /\ (b0 = 0xED -> b1 <= 0x9F)
  /\ 0x80 <= b2 <= 0xBF.

Definition wf4 (b0 b1 b2 b3 : Z) : Prop :=
  0xF0 <= b0 <= 0xF4 /\ 0x80 <= b1 <= 0xBF
  /\ (b0 = 0xF0 -> 0x90 <= b1) /\ (b0 = 0xF4 -> b1 <= 0x8F)
  /\ 0x80 <= b2 <= 0xBF /\ 0x80 <= b3 <= 0xBF.

(** Every occurrence of the byte [a] replaced by [new]. *)
Fixpoint replaceByte (a : ascii) (new s : string) : string :=
  match s with
  | EmptyString => EmptyString
  | String c t =>
      if Ascii.eqb a c then new ++ replaceByte a new t
      else String c (replaceByte a new t)
  end.

(** No layout of [formats] accepts [v]. *)
Definition noneParses (formats : list string) (v : string) : Prop :=
  Forall (fun f => snd (time_Parse f v) <> None) formats.

(** The digit of a number below ten. *)
Definition digitOfZ (n : Z) : digit :=
  if n =? 0 then D0 else if n =? 1 then D1 else if n =? 2 then D2
  else if n =? 3 then D3 else if n =? 4 then D4 else if n =? 5 then D5
  else if n =? 6 then D6 else if n =? 7 then D7 else if n =? 8 then D8
  else D9.

(** A quoted body as a reader of the literal scans it: a backslash takes
    the next byte with it.  [bareQuote] tells whether a single quote
    occurs outside such an escape, [endsEscaped] whether the body ends
    right after an escaping backslash (which would take the closing quote
    with it). *)
Fixpoint bareQuote (escaped : bool) (s : string) : bool :=
  match s with
  | EmptyString => false
  | String c t =>
      if escaped then bareQuote false t
      else if Ascii.eqb c "\" then bareQuote true t
      else if Ascii.eqb c "'" then true
      else bareQuote false t
  end.

Fixpoint endsEscaped (escaped : bool) (s : string) : bool :=
  match s with
  | EmptyString => escaped
  | String c t =>
      if escaped then endsEscaped false t
      else endsEscaped (Ascii.eqb c "\") t
  end.

(** Strings of ASCII white space only. *)
Fixpoint allSpace (s : string) : bool :=
  match s with
  | EmptyString => true
  | String c t => asciiSpace (b2z c) && allSpace t
  end.

(** A string that is empty or begins and ends with an ASCII byte that is
    not white space. *)
Definition plainEnds (s : string) : Prop :=
  s = EmptyString
  \/ exists c t x e,
       s = String c t /\ s = x ++ String e EmptyString
       /\ b2z c < utf8_RuneSelf /\ asciiSpace (b2z c) = false
       /\ b2z e < utf8_RuneSelf /\ asciiSpace (b2z e) = false.

(** The tags of the quoted-text rule [strip]. *)
Definition textTags : list string :=
  [ mdb_CHAR; mdb_VARCHAR; mdb_CLOB; mdb_INTERVAL; mdb_MONTH_INTERVAL;
    mdb_SEC_INTERVAL ].

(** The type names the encoder has a rule for. *)
Definition encoderTypes : list string :=
  [ "int"; "int8"; "int16"; "int32"; "int64"; "float"; "float32";
    "float64"; "bool"; "string"; "nil"; "[]uint8"; "time.Time";
    "monetdb.Time"; "monetdb.Date" ].

(** A stand-in for the three library functions left open above, to run
    the codec on concrete inputs. *)
Definition sample_ParseFloat : string -> Z -> float64 * option error :=
  fun _ _ => (0, Some (NumError "ParseFloat" "" ErrSyntax)).
Definition sample_float32 : float64 -> float32 := fun x => x.
Definition sample_Sprint : Value -> string := fun _ => "".

(** * Properties *)

(** ** The library functions and the rules on their own *)

Lemma parseTimeLoop_first (formats : list string) (v : string)
    (t0 : time_Time) (e0 : option error) :
  match parseTimeLoop formats v t0 e0 with
  | (t, None) =>
      (exists pre f post, formats = (pre ++ f :: post)%list /\
         noneParses pre v /\ time_Parse f v = (t, None))
      \/ (formats = [] /\ t = t0 /\ e0 = None)
  | (t, Some e) =>
      noneParses formats v /\
      ((formats = [] /\ t = t0 /\ e0 = Some e)
       \/ exists pre f, formats = (pre ++ [f])%list
                        /\ time_Parse f v = (t, Some e))
  end.
Proof.
  revert t0 e0. induction formats as [| f fs IH]; intros t0 e0.
  - simpl. destruct e0 as [e |].
    + split; [constructor | left; auto].
    + right. auto.
  - simpl. destruct (time_Parse f v) as [t1 e1] eqn:Hf.
    destruct e1 as [e1 |]; simpl.
    + specialize (IH t1 (Some e1)).
      assert (Hne : snd (time_Parse f v) <> None) by (rewrite Hf; discriminate).
      destruct (parseTimeLoop fs v t1 (Some e1)) as [t [e |]].
      * destruct IH as [Hnone Hlast]. split; [constructor; assumption |].
        right. destruct Hlast as [[-> [-> He]] | [pre [g [-> Hg]]]].
        -- exists [], f. split; [reflexivity |]. congruence.
        -- exists (f :: pre), g. split; [reflexivity | assumption].
      * destruct IH as [[pre [g [post [-> [Hpre Hg]]]]] | [_ [_ Habs]]];
          [| discriminate].
        left. exists (f :: pre), g, post.
        split; [reflexivity |]. split; [constructor; assumption | assumption].
    + left. exists [], f, fs. split; [reflexivity |].
      split; [constructor | exact Hf].
Qed.

(** C2 (amended). The layout list runs from the date-only pattern through
    the date-and-time patterns of growing length to the time-of-day
    pattern at the end.  For every input the patterns are tried in that
    order and the result of the first one that parses is returned;
    parseTime fails only when no pattern parses, and then with the
    ParseError of the last pattern tried. *)
Theorem C2_parseTime_first_match (v : string) :
  timeFormats =
    [ "2006-01-02"; "2006-01-02 15:04:05"; "2006-01-02 15:04:05 -0700";
      "2006-01-02 15:04:05 -0700 MST"; "Mon Jan 2 15:04:05 -0700 MST 2006";
      "15:04:05" ]
  /\ map layoutElems timeFormats =
    [ [stdLongYear; stdZeroMonth; stdZeroDay];
      [stdLongYear; stdZeroMonth; stdZeroDay; stdHour; stdZeroMinute;
       stdZeroSecond];
      [stdLongYear; stdZeroMonth; stdZeroDay; stdHour; stdZeroMinute;
       stdZeroSecond; stdNumTZ];
      [stdLongYear; stdZeroMonth; stdZeroDay; stdHour; stdZeroMinute;
       stdZeroSecond; stdNumTZ; stdTZ];
      [stdWeekDay; stdMonth; stdDay; stdHour; stdZeroMinute; stdZeroSecond;
       stdNumTZ; stdTZ; stdLongYear];
      [stdHour; stdZeroMinute; stdZeroSecond] ]
  /\ match parseTime v with
     | (t, None) =>
         exists pre f post, timeFormats = (pre ++ f :: post)%list /\
           noneParses pre v /\ time_Parse f v = (t, None)
     | (t, Some e) =>
         noneParses timeFormats v /\ time_Parse "15:04:05" v = (t, Some e)
     end.
Proof.
  split; [reflexivity |]. split; [reflexivity |].
  unfold parseTime.
  pose proof (parseTimeLoop_first timeFormats v time_zero None) as H.
  destruct (parseTimeLoop timeFormats v time_zero None) as [t [e |]].
  - destruct H as [Hnone [[Habs _] | [pre [f [Heq Hf]]]]]; [discriminate |].
    split; [assumption |].
    assert (f = "15:04:05") as <-; [| assumption].
    apply (f_equal (@List.rev string)) in Heq.
    rewrite rev_app_distr in Heq. simpl in Heq. congruence.
  - destruct H as [H | [Habs _]]; [assumption | discriminate].
Qed.

Lemma append_cons (c : ascii) (s t : string) :
  String c s ++ t = String c (s ++ t).
Proof. reflexivity. Qed.

Lemma append_nil_l (t : string) : EmptyString ++ t = t.
Proof. reflexivity. Qed.

Lemma append_nil_r (s : string) : s ++ EmptyString = s.
Proof. induction s as [| c s IH]; [reflexivity |]. now rewrite append_cons, IH. Qed.

Lemma append_assoc (s t u : string) : (s ++ t) ++ u = s ++ (t ++ u).
Proof.
  induction s as [| c s IH]; [reflexivity |]. now rewrite !append_cons, IH.
Qed.

Lemma hasPrefix_nil (s : string) : hasPrefix s EmptyString = true.
Proof. now destruct s. Qed.

Lemma replaceLoop_byte (a : ascii) (new : string) (n : Z) (s : string) :
  n < 0 -> replaceLoop O (String a EmptyString) new n s = replaceByte a new s.
Proof.
  intros Hn. revert n Hn. induction s as [| c t IH]; intros n Hn; [reflexivity |].
  cbn [replaceLoop replaceByte hasPrefix String.length Nat.sub].
  rewrite hasPrefix_nil. replace (n =? 0) with false by lia.
  cbn [negb andb].
  destruct (Ascii.eqb a c); rewrite IH by lia; reflexivity.
Qed.

Lemma escape_two_passes (s : string) :
  strings_Replace (strings_Replace s "\" "\\" (-1)) "'" "\'" (-1)
    = escapeEach s.
Proof.
  unfold strings_Replace. simpl String.eqb. cbv iota.
  rewrite !replaceLoop_byte by lia.
  induction s as [| c t IH]; [reflexivity |].
  cbn [replaceByte escapeEach]. unfold escapeByte.
  destruct (Ascii.eqb_spec "\" c) as [<- | Hb].
  - rewrite !append_cons, append_nil_l. cbn [replaceByte].
    change (Ascii.eqb "'" "\") with false. cbv iota.
    rewrite IH. reflexivity.
  - rewrite (proj2 (Ascii.eqb_neq c "\")) by congruence.
    cbn [replaceByte].
    destruct (Ascii.eqb_spec "'" c) as [<- | Hq].
    + rewrite IH. reflexivity.
    + rewrite IH, (proj2 (Ascii.eqb_neq c "'")) by congruence.
      reflexivity.
Qed.

Lemma ParseBool_true (t : string) :
  In t boolTrue -> strconv_ParseBool t = (true, None).
Proof.
  unfold boolTrue. simpl.
  intros [<- | [<- | [<- | [<- | [<- | [<- | []]]]]]]; reflexivity.
Qed.

Lemma ParseBool_false (t : string) :
  In t boolFalse -> strconv_ParseBool t = (false, None).
Proof.
  unfold boolFalse. simpl.
  intros [<- | [<- | [<- | [<- | [<- | [<- | []]]]]]]; reflexivity.
Qed.

Lemma ParseBool_other (t : string) :
  ~ In t boolTrue -> ~ In t boolFalse ->
  strconv_ParseBool t = (false, Some (NumError "ParseBool" t ErrSyntax)).
Proof.
  unfold boolTrue, boolFalse, strconv_ParseBool. simpl. intros HT HF.
  repeat match goal with
         | |- context [String.eqb t ?x] =>
             destruct (String.eqb_spec t x); [exfalso; intuition congruence |]
         end.
  reflexivity.
Qed.

Lemma slice_short (w : string) :
  len w < 2 -> slice w 1 (len w - 1) = Panic (SliceBoundsOutOfRange 1 (len w - 1)).
Proof.
  intros H. unfold slice.
  replace (1 <=? len w - 1) with false by lia. reflexivity.
Qed.

Lemma digitVal_range (d : digit) : 0 <= digitVal d <= 9.
Proof. destruct d; simpl; lia. Qed.

Lemma b2z_digitByte (d : digit) : b2z (digitByte d) = 0x30 + digitVal d.
Proof. now destruct d. Qed.

Lemma digitsValue_ge (ds : list digit) (acc : Z) :
  0 <= acc -> acc <= digitsValue ds acc.
Proof.
  revert acc. induction ds as [| d ds IH]; intros acc Hacc; simpl; [lia |].
  pose proof (digitVal_range d). specialize (IH (acc * 10 + digitVal d)). lia.
Qed.

Lemma parseUintLoop_digits (ds : list digit) (maxVal n : Z) :
  0 <= n <= maxVal -> maxVal <= maxUint64 ->
  parseUintLoop (digitsText ds) 10 (maxUint64 / 10 + 1) maxVal n
    = if digitsValue ds n <=? maxVal then inl (digitsValue ds n)
      else inr (maxVal, ErrRange).
Proof.
  revert n. induction ds as [| d ds IH]; intros n Hn Hmax.
  - simpl. replace (n <=? maxVal) with true by lia. reflexivity.
  - cbn [digitsText parseUintLoop digitsValue].
    rewrite b2z_digitByte. pose proof (digitVal_range d) as Hd.
    replace ((48 <=? 48 + digitVal d) && (48 + digitVal d <=? 57))
      with true by lia.
    replace (48 + digitVal d - 48) with (digitVal d) by lia.
    replace (10 mod 256 <=? digitVal d) with false
      by (change (10 mod 256) with 10; lia).
    unfold maxUint64 in *.
    change ((2 ^ 64 - 1) / 10 + 1) with 1844674407370955162 in *.
    change (2 ^ 64 - 1) with 18446744073709551615 in *.
    pose proof (digitsValue_ge ds (n * 10 + digitVal d)) as Hge.
    destruct (Z.leb_spec 1844674407370955162 n) as [Hcut | Hcut].
    + replace (digitsValue ds (n * 10 + digitVal d) <=? maxVal) with false
        by lia.
      reflexivity.
    + unfold uint64. change (2 ^ 64) with 18446744073709551616.
      rewrite (Z.mod_small (n * 10)) by lia.
      destruct (Z.leb_spec 18446744073709551616 (n * 10 + digitVal d))
        as [Hov | Hov].
      * replace ((n * 10 + digitVal d) mod 18446744073709551616)
          with (n * 10 + digitVal d - 18446744073709551616)
          by (apply Z.mod_unique with 1; lia).
        replace (n * 10 + digitVal d - 18446744073709551616 <? n * 10)
          with true by lia.
        replace (digitsValue ds (n * 10 + digitVal d) <=? maxVal) with false
          by lia.
        reflexivity.
      * rewrite Z.mod_small by lia.
        replace (n * 10 + digitVal d <? n * 10) with false by lia.
        destruct (Z.ltb_spec maxVal (n * 10 + digitVal d)) as [Hbig | Hfit].
        -- replace (digitsValue ds (n * 10 + digitVal d) <=? maxVal) with false
             by lia.
           reflexivity.
        -- simpl. apply IH; lia.
Qed.

Lemma int64_small (z : Z) : - 2 ^ 63 <= z < 2 ^ 63 -> int64 z = z.
Proof. intros H. unfold int64. rewrite Z.mod_small; lia. Qed.

Lemma int64_min : int64 (2 ^ 63) = - 2 ^ 63.
Proof. reflexivity. Qed.

Ltac each_width H :=
  simpl in H; destruct H as [<- | [<- | [<- | [<- | []]]]].

Lemma ParseUint_digits (d : digit) (ds : list digit) (w : Z) :
  In w [8; 16; 32; 64] ->
  strconv_ParseUint (digitsText (d :: ds)) 10 w
    = if digitsValue (d :: ds) 0 <=? 2 ^ w - 1
      then (digitsValue (d :: ds) 0, None)
      else (2 ^ w - 1,
            Some (NumError "ParseUint" (digitsText (d :: ds)) ErrRange)).
Proof.
  intros Hw. unfold strconv_ParseUint. cbv zeta.
  change (String.eqb (digitsText (d :: ds)) "") with false. cbv iota.
  replace (negb ((2 <=? 10) && (10 <=? 36))) with false by reflexivity.
  assert (Hmax : (if w =? 0 then IntSize else w) = w
                 /\ uint64 (uint64 (Z.shiftl 1 w) - 1) = 2 ^ w - 1
                 /\ ((w <? 0) || (64 <? w)) = false).
  { each_width Hw; repeat split; reflexivity. }
  destruct Hmax as [-> [-> ->]]. cbv iota.
  rewrite parseUintLoop_digits.
  - destruct (digitsValue (d :: ds) 0 <=? 2 ^ w - 1); reflexivity.
  - each_width Hw; vm_compute; split; discriminate.
  - each_width Hw; vm_compute; discriminate.
Qed.

Lemma digitByte_not_sign (d : digit) :
  Ascii.eqb (digitByte d) "+" = false /\ Ascii.eqb (digitByte d) "-" = false.
Proof. destruct d; split; reflexivity. Qed.

Lemma ParseInt_token (w : Z) (sg : sign) (d : digit) (ds : list digit) :
  In w [8; 16; 32; 64] ->
  if inRange w (tokenValue sg d ds)
  then strconv_ParseInt (tokenText sg d ds) 10 w = (tokenValue sg d ds, None)
  else snd (strconv_ParseInt (tokenText sg d ds) 10 w)
       = Some (NumError "ParseInt" (tokenText sg d ds) ErrRange).
Proof.
  intros Hw.
  assert (Hsplit : exists neg,
    strconv_ParseInt (tokenText sg d ds) 10 w =
      (let s0 := tokenText sg d ds in
       let '(un, err) := strconv_ParseUint (digitsText (d :: ds)) 10 w in
       match err with
       | Some (NumError _ _ ErrRange) | None =>
           let bitSize := if w =? 0 then IntSize else w in
           let cutoff := uint64 (Z.shiftl 1 (bitSize - 1)) in
           if negb neg && (cutoff <=? un)
           then (int64 (cutoff - 1), Some (NumError "ParseInt" s0 ErrRange))
           else if neg && (cutoff <? un)
           then (int64 (- int64 cutoff),
                 Some (NumError "ParseInt" s0 ErrRange))
           else
             let n := int64 un in
             let n := if neg then int64 (- n) else n in
             (n, None)
       | Some (NumError _ _ e) => (0, Some (NumError "ParseInt" s0 e))
       | Some e => (0, Some e)
       end)
    /\ neg = match sg with MinusSign => true | _ => false end).
  { destruct sg.
    - exists false. split; [| reflexivity].
      unfold tokenText, signText. rewrite append_nil_l.
      unfold strconv_ParseInt. cbn [digitsText].
      destruct (digitByte_not_sign d) as [-> ->]. reflexivity.
    - exists false. split; reflexivity.
    - exists true. split; reflexivity. }
  destruct Hsplit as [neg [-> Hneg]]. cbv zeta.
  rewrite (ParseUint_digits d ds w Hw).
  pose proof (digitsValue_ge (d :: ds) 0 ltac:(lia)) as HV.
  unfold tokenValue, inRange.
  set (V := digitsValue (d :: ds) 0) in *.
  assert (Hc : (if w =? 0 then IntSize else w) = w
               /\ uint64 (Z.shiftl 1 (w - 1)) = 2 ^ (w - 1)
               /\ 2 ^ w = 2 * 2 ^ (w - 1) /\ 2 <= 2 ^ (w - 1) <= 2 ^ 63).
  { each_width Hw; vm_compute; intuition discriminate. }
  destruct Hc as [Hw0 [Hc [Hw2 Hpos]]]. rewrite Hw0, Hw2.
  set (C := 2 ^ (w - 1)) in *.
  rewrite !Hc. clearbody V C. clear Hc Hw2 Hw.
  destruct sg; subst neg; cbn [negb andb];
    repeat (match goal with
            | |- context [Z.leb ?a ?b] => destruct (Z.leb_spec a b)
            | |- context [Z.ltb ?a ?b] => destruct (Z.ltb_spec a b)
            end; cbn [negb andb fst snd]; try lia);
    try reflexivity.
  - now rewrite int64_small by lia.
  - now rewrite int64_small by lia.
  - destruct (Z.eq_dec V (2 ^ 63)) as [-> | Hne].
    + reflexivity.
    + now rewrite !int64_small by (rewrite ?int64_small; lia).
Qed.

Lemma rev_app_snoc (x : string) (c : ascii) (acc : string) :
  String.rev_app (x ++ String c EmptyString) acc
    = String c (String.rev_app x acc).
Proof.
  revert acc. induction x as [| a x IH]; intros acc; [reflexivity |].
  rewrite append_cons. cbn [String.rev_app]. apply IH.
Qed.

Lemma rev_app_rev_app (s a b : string) :
  String.rev_app (String.rev_app s a) b = String.rev_app a (s ++ b).
Proof.
  revert a b. induction s as [| c s IH]; intros a b; [reflexivity |].
  cbn [String.rev_app]. rewrite IH. reflexivity.
Qed.

Lemma rev_involutive (s : string) : String.rev (String.rev s) = s.
Proof.
  unfold String.rev. rewrite rev_app_rev_app. cbn [String.rev_app].
  apply append_nil_r.
Qed.

(** TrimSpace leaves a string alone that begins and ends with an ASCII
    byte that is not a space. *)
Lemma TrimSpace_plain (c l : ascii) (t x : string) :
  String c t = x ++ String l EmptyString ->
  b2z c < utf8_RuneSelf -> asciiSpace (b2z c) = false ->
  b2z l < utf8_RuneSelf -> asciiSpace (b2z l) = false ->
  strings_TrimSpace (String c t) = String c t.
Proof.
  intros Hx Hc Hcs Hl Hls. unfold strings_TrimSpace. cbn [trimSpaceStart].
  replace (utf8_RuneSelf <=? b2z c) with false by lia. rewrite Hcs.
  assert (Hrev : String.rev (String c t) = String l (String.rev x)).
  { rewrite Hx. unfold String.rev. apply rev_app_snoc. }
  rewrite Hrev. cbn [trimSpaceStop].
  replace (utf8_RuneSelf <=? b2z l) with false by lia. rewrite Hls.
  rewrite <- Hrev. apply rev_involutive.
Qed.

Lemma digitsText_snoc (d : digit) (ds : list digit) :
  exists x l, digitsText (d :: ds) = x ++ String (digitByte l) EmptyString.
Proof.
  revert d. induction ds as [| e ds IH]; intros d.
  - exists EmptyString, d. reflexivity.
  - destruct (IH e) as [x [l Hx]]. exists (String (digitByte d) x), l.
    cbn [digitsText] in *. now rewrite Hx.
Qed.

Lemma digitByte_plain (d : digit) :
  b2z (digitByte d) < utf8_RuneSelf /\ asciiSpace (b2z (digitByte d)) = false.
Proof. destruct d; split; reflexivity. Qed.

Lemma TrimSpace_token (sg : sign) (d : digit) (ds : list digit) :
  strings_TrimSpace (tokenText sg d ds) = tokenText sg d ds.
Proof.
  destruct (digitsText_snoc d ds) as [x [l Hx]].
  destruct (digitByte_plain l) as [Hl Hls].
  destruct (digitByte_plain d) as [Hd Hds].
  unfold tokenText. destruct sg; cbn [signText].
  - rewrite append_nil_l. cbn [digitsText].
    apply TrimSpace_plain with (l := digitByte l) (x := x); auto.
  - rewrite append_cons, append_nil_l.
    apply TrimSpace_plain with (l := digitByte l) (x := String "+" x);
      [now rewrite Hx | reflexivity | reflexivity | assumption | assumption].
  - rewrite append_cons, append_nil_l.
    apply TrimSpace_plain with (l := digitByte l) (x := String "-" x);
      [now rewrite Hx | reflexivity | reflexivity | assumption | assumption].
Qed.

Ltac int_rule w :=
  match goal with
  | |- context [tokenText ?sg ?d ?ds] =>
      pose proof (ParseInt_token w sg d ds ltac:(simpl; tauto)) as H;
      destruct (inRange w (tokenValue sg d ds)) eqn:E;
      [ rewrite H; cbn [isNil];
        unfold inRange in E; apply andb_prop in E; destruct E as [E1 E2];
        apply Z.leb_le in E1; apply Z.ltb_lt in E2
      | destruct (strconv_ParseInt (tokenText sg d ds) 10 w) as [i err];
        simpl in H; subst err; reflexivity ]
  end.

Lemma toInt8_token (sg : sign) (d : digit) (ds : list digit) :
  toInt8 (tokenText sg d ds)
    = if inRange 8 (tokenValue sg d ds)
      then Ret (VInt8 (tokenValue sg d ds), None)
      else Ret (VInt8 0, Some (NumError "ParseInt" (tokenText sg d ds) ErrRange)).
Proof.
  unfold toInt8. int_rule 8.
  change (2 ^ (8 - 1)) with 128 in *. change (2 ^ 7) with 128.
  change (2 ^ 8) with 256. rewrite Z.mod_small by lia.
  do 3 f_equal. lia.
Qed.

Lemma toInt16_token (sg : sign) (d : digit) (ds : list digit) :
  toInt16 (tokenText sg d ds)
    = if inRange 16 (tokenValue sg d ds)
      then Ret (VInt16 (tokenValue sg d ds), None)
      else Ret (VInt16 0, Some (NumError "ParseInt" (tokenText sg d ds) ErrRange)).
Proof.
  unfold toInt16. int_rule 16.
  change (2 ^ (16 - 1)) with 32768 in *. change (2 ^ 15) with 32768.
  change (2 ^ 16) with 65536. rewrite Z.mod_small by lia.
  do 3 f_equal. lia.
Qed.

Lemma toInt32_token (sg : sign) (d : digit) (ds : list digit) :
  toInt32 (tokenText sg d ds)
    = if inRange 32 (tokenValue sg d ds)
      then Ret (VInt32 (tokenValue sg d ds), None)
      else Ret (VInt32 0, Some (NumError "ParseInt" (tokenText sg d ds) ErrRange)).
Proof.
  unfold toInt32. int_rule 32.
  unfold int32. change (2 ^ (32 - 1)) with (2 ^ 31) in *.
  rewrite Z.mod_small by lia. do 3 f_equal. lia.
Qed.

Lemma toInt64_token (sg : sign) (d : digit) (ds : list digit) :
  toInt64 (tokenText sg d ds)
    = if inRange 64 (tokenValue sg d ds)
      then Ret (VInt64 (tokenValue sg d ds), None)
      else Ret (VInt64 0, Some (NumError "ParseInt" (tokenText sg d ds) ErrRange)).
Proof.
  unfold toInt64. int_rule 64.
  change (2 ^ (64 - 1)) with (2 ^ 63) in *.
  now rewrite int64_small by lia.
Qed.

Lemma b2z_range (c : ascii) : 0 <= b2z c < 256.
Proof.
  unfold b2z. pose proof (N_ascii_bounded c) as H. lia.
Qed.

Lemma z2b_b2z (c : ascii) : z2b (b2z c) = c.
Proof.
  unfold z2b. rewrite Z.mod_small by apply b2z_range.
  unfold b2z. rewrite N2Z.id. apply ascii_N_embedding.
Qed.

Lemma b2z_z2b (z : Z) : b2z (z2b z) = z mod 256.
Proof.
  unfold b2z, z2b. pose proof (Z.mod_pos_bound z 256 ltac:(lia)) as H.
  rewrite N_ascii_embedding by lia. apply Z2N.id. lia.
Qed.

Lemma land_ones_mod (x k : Z) : 0 <= k -> Z.land x (2 ^ k - 1) = x mod 2 ^ k.
Proof.
  intros Hk. rewrite <- Z.land_ones by assumption.
  now rewrite Z.ones_equiv, <- Z.sub_1_r.
Qed.

Lemma lor_add (hi lo k : Z) :
  0 <= k -> 0 <= lo < 2 ^ k -> hi mod 2 ^ k = 0 -> Z.lor hi lo = hi + lo.
Proof.
  intros Hk Hlo Hhi.
  assert (Hland : Z.land hi lo = 0).
  { apply Z.bits_inj'. intros n Hn. rewrite Z.land_spec, Z.bits_0.
    destruct (Z.lt_ge_cases n k) as [Hnk | Hnk].
    - replace hi with (hi / 2 ^ k * 2 ^ k)
        by (pose proof (Z.div_mod hi (2 ^ k)); lia).
      now rewrite Z.mul_pow2_bits_low.
    - replace (Z.testbit lo n) with false; [apply andb_false_r |].
      symmetry. apply Z.testbit_false; [assumption |].
      rewrite Z.div_small; [reflexivity |].
      split; [lia |]. apply Z.lt_le_trans with (2 ^ k); [lia |].
      apply Z.pow_le_mono_r; lia. }
  rewrite <- Z.lxor_lor by assumption.
  symmetry. now apply Z.add_nocarry_lxor.
Qed.

Lemma len_cons (c : ascii) (s : string) : len (String c s) = 1 + len s.
Proof. unfold len. cbn [String.length]. lia. Qed.

Lemma len_nonneg (s : string) : 0 <= len s.
Proof. unfold len. lia. Qed.

Lemma sidx_0 (c : ascii) (s : string) : sidx (String c s) 0 = b2z c.
Proof. reflexivity. Qed.

Lemma sidx_1 (c0 c1 : ascii) (s : string) :
  sidx (String c0 (String c1 s)) 1 = b2z c1.
Proof. reflexivity. Qed.

Lemma sidx_2 (c0 c1 c2 : ascii) (s : string) :
  sidx (String c0 (String c1 (String c2 s))) 2 = b2z c2.
Proof. reflexivity. Qed.

Lemma sidx_3 (c0 c1 c2 c3 : ascii) (s : string) :
  sidx (String c0 (String c1 (String c2 (String c3 s)))) 3 = b2z c3.
Proof. reflexivity. Qed.

(** The classes of leading bytes, read off the [first] table. *)
Lemma first_cases (b : Z) :
  0 <= b < 256 ->
  (b < 0x80 /\ first b = first_as)
  \/ ((0x80 <= b < 0xC2 \/ 0xF5 <= b) /\ first b = first_xx)
  \/ (0xC2 <= b <= 0xDF /\ first b = first_s1)
  \/ (b = 0xE0 /\ first b = first_s2)
  \/ ((0xE1 <= b <= 0xEC \/ 0xEE <= b <= 0xEF) /\ first b = first_s3)
  \/ (b = 0xED /\ first b = first_s4)
  \/ (b = 0xF0 /\ first b = first_s5)
  \/ (0xF1 <= b <= 0xF3 /\ first b = first_s6)
  \/ (b = 0xF4 /\ first b = first_s7).
Proof.
  intros Hb. unfold first.
  repeat match goal with
         | |- context [Z.ltb ?a ?c] => destruct (Z.ltb_spec a c)
         | |- context [Z.eqb ?a ?c] => destruct (Z.eqb_spec a c)
         end; intuition lia.
Qed.

Ltac bits_to_arith :=
  rewrite ?Z.shiftr_div_pow2, ?Z.shiftl_mul_pow2, ?b2z_z2b by lia;
  change maskx with (2 ^ 6 - 1); change mask2 with (2 ^ 5 - 1);
  change mask3 with (2 ^ 4 - 1); change mask4 with (2 ^ 3 - 1);
  rewrite ?land_ones_mod by lia;
  change (2 ^ 3) with 8; change (2 ^ 4) with 16; change (2 ^ 5) with 32;
  change (2 ^ 6) with 64; change (2 ^ 12) with 4096;
  change (2 ^ 18) with 262144.

Ltac divmod := Z.to_euclidean_division_equations; lia.

Lemma decode2_arith (b0 b1 : Z) :
  0xC2 <= b0 <= 0xDF -> 0x80 <= b1 <= 0xBF ->
  Z.lor (Z.shiftl (Z.land b0 mask2) 6) (Z.land b1 maskx)
    = (b0 - 0xC0) * 64 + (b1 - 0x80).
Proof.
  intros H0 H1. bits_to_arith.
  rewrite (lor_add _ _ 6) by (change (2 ^ 6) with 64; divmod). divmod.
Qed.

Lemma decode3_arith (b0 b1 b2 : Z) :
  0xE0 <= b0 <= 0xEF -> 0x80 <= b1 <= 0xBF -> 0x80 <= b2 <= 0xBF ->
  Z.lor (Z.lor (Z.shiftl (Z.land b0 mask3) 12) (Z.shiftl (Z.land b1 maskx) 6))
        (Z.land b2 maskx)
    = (b0 - 0xE0) * 4096 + (b1 - 0x80) * 64 + (b2 - 0x80).
Proof.
  intros H0 H1 H2. bits_to_arith.
  rewrite (lor_add (b0 mod 16 * 4096) (b1 mod 64 * 64) 12)
    by (change (2 ^ 12) with 4096; divmod).
  rewrite (lor_add _ _ 6) by (change (2 ^ 6) with 64; divmod). divmod.
Qed.

Lemma decode4_arith (b0 b1 b2 b3 : Z) :
  0xF0 <= b0 <= 0xF7 -> 0x80 <= b1 <= 0xBF -> 0x80 <= b2 <= 0xBF ->
  0x80 <= b3 <= 0xBF ->
  Z.lor (Z.lor (Z.lor (Z.shiftl (Z.land b0 mask4) 18)
                      (Z.shiftl (Z.land b1 maskx) 12))
               (Z.shiftl (Z.land b2 maskx) 6))
        (Z.land b3 maskx)
    = (b0 - 0xF0) * 262144 + (b1 - 0x80) * 4096 + (b2 - 0x80) * 64
      + (b3 - 0x80).
Proof.
  intros H0 H1 H2 H3. bits_to_arith.
  rewrite (lor_add (b0 mod 8 * 262144) (b1 mod 64 * 4096) 18)
    by (change (2 ^ 18) with 262144; divmod).
  rewrite (lor_add _ (b2 mod 64 * 64) 12)
    by (change (2 ^ 12) with 4096; divmod).
  rewrite (lor_add _ _ 6) by (change (2 ^ 6) with 64; divmod). divmod.
Qed.

(** The bytes EncodeRune writes, as arithmetic. *)
Lemma lead_byte (t r k n : Z) :
  0 <= k -> 0 <= n -> t mod 2 ^ k = 0 -> 0 <= r / 2 ^ n < 2 ^ k ->
  2 ^ k <= 256 ->
  Z.lor t (b2z (z2b (Z.shiftr r n))) = t + r / 2 ^ n.
Proof.
  intros Hk Hn Ht Hr H256. rewrite Z.shiftr_div_pow2, b2z_z2b by assumption.
  rewrite Z.mod_small by lia. now apply lor_add with k.
Qed.

Lemma cont_byte (r n : Z) :
  0 <= n ->
  Z.lor tx (Z.land (b2z (z2b (Z.shiftr r n))) maskx) = 0x80 + (r / 2 ^ n) mod 64.
Proof.
  intros Hn. rewrite Z.shiftr_div_pow2, b2z_z2b by assumption.
  generalize (r / 2 ^ n). intros q.
  change maskx with (2 ^ 6 - 1). rewrite land_ones_mod by lia.
  change (2 ^ 6) with 64. unfold tx.
  rewrite (lor_add _ _ 6) by (change (2 ^ 6) with 64; divmod).
  divmod.
Qed.

Lemma cont_byte0 (r : Z) :
  Z.lor tx (Z.land (b2z (z2b r)) maskx) = 0x80 + r mod 64.
Proof.
  pose proof (cont_byte r 0 ltac:(lia)) as H.
  rewrite Z.shiftr_0_r in H. rewrite H. now rewrite Z.pow_0_r, Z.div_1_r.
Qed.

Lemma EncodeRune_2 (c0 c1 : ascii) :
  wf2 (b2z c0) (b2z c1) ->
  utf8_EncodeRune ((b2z c0 - 0xC0) * 64 + (b2z c1 - 0x80))
    = String c0 (String c1 EmptyString).
Proof.
  intros [H0 H1]. unfold utf8_EncodeRune. cbv zeta.
  set (r := (b2z c0 - 0xC0) * 64 + (b2z c1 - 0x80)).
  assert (Hr : 0x80 <= r <= 0x7FF) by (subst r; lia).
  rewrite (Z.mod_small r) by lia.
  unfold rune1Max, rune2Max.
  replace (r <=? 127) with false by lia. replace (r <=? 2047) with true by lia.
  rewrite (lead_byte t2 r 5 6), cont_byte0;
    [| lia | lia | reflexivity | change (2 ^ 5) with 32; change (2 ^ 6) with 64;
                                 subst r; divmod | lia].
  change (2 ^ 6) with 64.
  replace (t2 + r / 64) with (b2z c0) by (unfold t2; subst r; divmod).
  replace (128 + r mod 64) with (b2z c1) by (subst r; divmod).
  now rewrite !z2b_b2z.
Qed.

Lemma EncodeRune_3 (c0 c1 c2 : ascii) :
  wf3 (b2z c0) (b2z c1) (b2z c2) ->
  utf8_EncodeRune ((b2z c0 - 0xE0) * 4096 + (b2z c1 - 0x80) * 64
                   + (b2z c2 - 0x80))
    = String c0 (String c1 (String c2 EmptyString)).
Proof.
  intros [H0 [H1 [HE0 [HED H2]]]]. unfold utf8_EncodeRune. cbv zeta.
  set (r := (b2z c0 - 0xE0) * 4096 + (b2z c1 - 0x80) * 64 + (b2z c2 - 0x80)).
  assert (Hr : 0x800 <= r <= 0xFFFF /\ (r < 0xD800 \/ 0xDFFF < r))
    by (subst r; lia).
  rewrite (Z.mod_small r) by lia.
  unfold rune1Max, rune2Max, rune3Max, utf8_MaxRune, surrogateMin, surrogateMax.
  replace (r <=? 127) with false by lia. replace (r <=? 2047) with false by lia.
  replace (1114111 <? r) with false by lia.
  replace ((55296 <=? r) && (r <=? 57343)) with false by lia.
  replace (r <=? 65535) with true by lia. cbn [orb].
  rewrite (lead_byte t3 r 4 12), (cont_byte r 6), cont_byte0;
    [| lia | lia | lia | reflexivity
     | change (2 ^ 4) with 16; change (2 ^ 12) with 4096; subst r; divmod
     | lia].
  change (2 ^ 12) with 4096. change (2 ^ 6) with 64.
  replace (t3 + r / 4096) with (b2z c0) by (unfold t3; subst r; divmod).
  replace (128 + (r / 64) mod 64) with (b2z c1) by (subst r; divmod).
  replace (128 + r mod 64) with (b2z c2) by (subst r; divmod).
  now rewrite !z2b_b2z.
Qed.

Lemma EncodeRune_4 (c0 c1 c2 c3 : ascii) :
  wf4 (b2z c0) (b2z c1) (b2z c2) (b2z c3) ->
  utf8_EncodeRune ((b2z c0 - 0xF0) * 262144 + (b2z c1 - 0x80) * 4096
                   + (b2z c2 - 0x80) * 64 + (b2z c3 - 0x80))
    = String c0 (String c1 (String c2 (String c3 EmptyString))).
Proof.
  intros [H0 [H1 [HF0 [HF4 [H2 H3]]]]]. unfold utf8_EncodeRune. cbv zeta.
  set (r := (b2z c0 - 0xF0) * 262144 + (b2z c1 - 0x80) * 4096
            + (b2z c2 - 0x80) * 64 + (b2z c3 - 0x80)).
  assert (Hr : 0x10000 <= r <= 0x10FFFF) by (subst r; lia).
  rewrite (Z.mod_small r) by lia.
  unfold rune1Max, rune2Max, rune3Max, utf8_MaxRune, surrogateMin, surrogateMax.
  replace (r <=? 127) with false by lia. replace (r <=? 2047) with false by lia.
  replace (1114111 <? r) with false by lia.
  replace ((55296 <=? r) && (r <=? 57343)) with false by lia.
  replace (r <=? 65535) with false by lia. cbn [orb].
  rewrite (lead_byte t4 r 3 18), (cont_byte r 12), (cont_byte r 6), cont_byte0;
    [| lia | lia | lia | lia | reflexivity
     | change (2 ^ 3) with 8; change (2 ^ 18) with 262144; subst r; divmod
     | lia].
  change (2 ^ 18) with 262144. change (2 ^ 12) with 4096.
  change (2 ^ 6) with 64.
  replace (t4 + r / 262144) with (b2z c0) by (unfold t4; subst r; divmod).
  replace (128 + (r / 4096) mod 64) with (b2z c1) by (subst r; divmod).
  replace (128 + (r / 64) mod 64) with (b2z c2) by (subst r; divmod).
  replace (128 + r mod 64) with (b2z c3) by (subst r; divmod).
  now rewrite !z2b_b2z.
Qed.

(** After [first[s0]] is known, the table lookups of the decoder are
    closed terms. *)
Ltac eval_first :=
  repeat match goal with
    | |- context [first_as <=? ?x] =>
        let v := eval vm_compute in (first_as <=? x) in
        change (first_as <=? x) with v
    | |- context [Z.land ?x 7] =>
        let v := eval vm_compute in (Z.land x 7) in
        change (Z.land x 7) with v
    | |- context [acceptRanges (Z.shiftr ?x 4)] =>
        let v := eval vm_compute in (acceptRanges (Z.shiftr x 4)) in
        change (acceptRanges (Z.shiftr x 4)) with v
    end;
  cbv iota; cbn [fst snd].

Ltac first_of c H :=
  destruct (first_cases (b2z c) (b2z_range c))
    as [[? H] | [[? H] | [[? H] | [[? H] | [[? H] | [[? H] | [[? H]
       | [[? H] | [? H]]]]]]]]];
  try lia; rewrite H; eval_first.

Ltac decide_tests :=
  repeat match goal with
    | |- context [Z.ltb ?a ?b] =>
        first [ replace (Z.ltb a b) with false by lia
              | replace (Z.ltb a b) with true by lia ]
    | |- context [Z.leb ?a ?b] =>
        first [ replace (Z.leb a b) with false by lia
              | replace (Z.leb a b) with true by lia ]
    end;
  cbn [orb andb negb]; cbv iota.

Lemma DecodeRune_2 (c0 c1 : ascii) (rest : string) :
  wf2 (b2z c0) (b2z c1) ->
  utf8_DecodeRuneInString (String c0 (String c1 rest))
    = ((b2z c0 - 0xC0) * 64 + (b2z c1 - 0x80), 2).
Proof.
  intros [H0 H1]. unfold utf8_DecodeRuneInString. cbv zeta.
  rewrite sidx_0, sidx_1, !len_cons. pose proof (len_nonneg rest).
  first_of c0 E. unfold locb, hicb. decide_tests.
  now rewrite decode2_arith.
Qed.

Lemma DecodeRune_3 (c0 c1 c2 : ascii) (rest : string) :
  wf3 (b2z c0) (b2z c1) (b2z c2) ->
  utf8_DecodeRuneInString (String c0 (String c1 (String c2 rest)))
    = ((b2z c0 - 0xE0) * 4096 + (b2z c1 - 0x80) * 64 + (b2z c2 - 0x80), 3).
Proof.
  intros [H0 [H1 [HE0 [HED H2]]]]. unfold utf8_DecodeRuneInString. cbv zeta.
  rewrite sidx_0, sidx_1, sidx_2, !len_cons. pose proof (len_nonneg rest).
  first_of c0 E; unfold locb, hicb; decide_tests;
    now rewrite decode3_arith.
Qed.

Lemma DecodeRune_4 (c0 c1 c2 c3 : ascii) (rest : string) :
  wf4 (b2z c0) (b2z c1) (b2z c2) (b2z c3) ->
  utf8_DecodeRuneInString
    (String c0 (String c1 (String c2 (String c3 rest))))
    = ((b2z c0 - 0xF0) * 262144 + (b2z c1 - 0x80) * 4096
       + (b2z c2 - 0x80) * 64 + (b2z c3 - 0x80), 4).
Proof.
  intros [H0 [H1 [HF0 [HF4 [H2 H3]]]]]. unfold utf8_DecodeRuneInString.
  cbv zeta.
  rewrite sidx_0, sidx_1, sidx_2, sidx_3, !len_cons.
  pose proof (len_nonneg rest).
  first_of c0 E; unfold locb, hicb; decide_tests;
    now rewrite decode4_arith by lia.
Qed.

Ltac eval_closed_eqb :=
  repeat match goal with
    | |- context [Z.eqb ?a ?b] =>
        let v := eval vm_compute in (Z.eqb a b) in
        match v with
        | true => change (Z.eqb a b) with true
        | false => change (Z.eqb a b) with false
        end
    end;
  cbv iota.

Ltac reject := cbn [orb]; cbv iota; intros Hv; discriminate Hv.

Ltac range_test c :=
  match goal with
  | |- context [Z.ltb (b2z c) ?lo] =>
      destruct (Z.ltb_spec (b2z c) lo); [reject |]
  end;
  match goal with
  | |- context [Z.ltb ?hi (b2z c)] =>
      destruct (Z.ltb_spec hi (b2z c)); [reject |]
  end;
  cbn [orb]; cbv iota.

(** Induction over a valid UTF-8 string, one encoding at a time. *)
Lemma ValidString_induction (P : string -> Prop) :
  P EmptyString ->
  (forall c r, b2z c < utf8_RuneSelf -> P r -> P (String c r)) ->
  (forall c0 c1 r, wf2 (b2z c0) (b2z c1) -> P r ->
     P (String c0 (String c1 r))) ->
  (forall c0 c1 c2 r, wf3 (b2z c0) (b2z c1) (b2z c2) -> P r ->
     P (String c0 (String c1 (String c2 r)))) ->
  (forall c0 c1 c2 c3 r, wf4 (b2z c0) (b2z c1) (b2z c2) (b2z c3) -> P r ->
     P (String c0 (String c1 (String c2 (String c3 r))))) ->
  forall s, utf8_ValidString s = true -> P s.
Proof.
  intros Hnil H1 H2 H3 H4.
  assert (Hall : forall (n : nat) (s : string),
             (String.length s <= n)%nat -> utf8_ValidString s = true -> P s).
  { induction n as [| n IH]; intros s Hlen Hv.
    - destruct s; [exact Hnil | simpl in Hlen; lia].
    - destruct s as [| c0 r0]; [exact Hnil |].
      cbn [String.length] in Hlen. revert Hv.
      cbn [utf8_ValidString]. cbv zeta.
      destruct (Z.ltb_spec (b2z c0) utf8_RuneSelf) as [Hasc | Hhigh].
      + intros Hv. apply H1; [assumption | apply IH; [lia | assumption]].
      + unfold utf8_RuneSelf in Hhigh.
        first_of c0 E; eval_closed_eqb; try (intros Hv; discriminate Hv);
          (destruct r0 as [| c1 r1]; [intros Hv; discriminate Hv |]);
          cbn [String.length] in Hlen; unfold locb, hicb;
          range_test c1;
          try (intros Hv; apply H2;
               [unfold wf2; lia | apply IH; [lia | assumption]]);
          (destruct r1 as [| c2 r2]; [intros Hv; discriminate Hv |]);
          cbn [String.length] in Hlen;
          range_test c2;
          try (intros Hv; apply H3;
               [unfold wf3; lia | apply IH; [lia | assumption]]);
          (destruct r2 as [| c3 r3]; [intros Hv; discriminate Hv |]);
          cbn [String.length] in Hlen;
          range_test c3;
          (intros Hv; apply H4;
             [unfold wf4; lia | apply IH; [lia | assumption]]). }
  intros s. apply (Hall (String.length s)). lia.
Qed.

Lemma high_not_special (c : ascii) :
  utf8_RuneSelf <= b2z c -> c <> "\"%char /\ c <> "'"%char.
Proof.
  unfold utf8_RuneSelf. intros H.
  split; intros ->; vm_compute in H; now apply H.
Qed.

Lemma escapeByte_other (c : ascii) :
  c <> "\"%char -> c <> "'"%char -> escapeByte c = String c EmptyString.
Proof.
  intros Hb Hq. unfold escapeByte.
  now rewrite (proj2 (Ascii.eqb_neq c "\")), (proj2 (Ascii.eqb_neq c "'")).
Qed.

Lemma escapeEach_other (c : ascii) (r : string) :
  c <> "\"%char -> c <> "'"%char ->
  escapeEach (String c r) = String c (escapeEach r).
Proof.
  intros Hb Hq. cbn [escapeEach]. now rewrite escapeByte_other.
Qed.

Lemma UnquoteChar_backslash (rest : string) :
  strconv_UnquoteChar (String "\" (String "\" rest)) "'"
    = (b2z "\", false, rest, None).
Proof. reflexivity. Qed.

Lemma UnquoteChar_quote (rest : string) :
  strconv_UnquoteChar (String "\" (String "'" rest)) "'"
    = (b2z "'", false, rest, None).
Proof. reflexivity. Qed.

Lemma UnquoteChar_plain (c : ascii) (rest : string) :
  c <> "\"%char -> c <> "'"%char -> b2z c < utf8_RuneSelf ->
  strconv_UnquoteChar (String c rest) "'" = (b2z c, false, rest, None).
Proof.
  intros Hb Hq Hc. unfold strconv_UnquoteChar.
  rewrite (proj2 (Ascii.eqb_neq c "'")), (proj2 (Ascii.eqb_neq c "\"))
    by assumption.
  replace (utf8_RuneSelf <=? b2z c) with false by lia. reflexivity.
Qed.

Lemma UnquoteChar_multibyte (c : ascii) (t : string) :
  utf8_RuneSelf <= b2z c ->
  strconv_UnquoteChar (String c t) "'"
    = (fst (utf8_DecodeRuneInString (String c t)), true,
       dropZ (snd (utf8_DecodeRuneInString (String c t))) (String c t), None).
Proof.
  intros Hc. destruct (high_not_special c Hc) as [_ Hq].
  unfold strconv_UnquoteChar.
  rewrite (proj2 (Ascii.eqb_neq c "'")) by assumption.
  replace (utf8_RuneSelf <=? b2z c) with true by lia. cbn [andb].
  now destruct (utf8_DecodeRuneInString (String c t)).
Qed.

Lemma length_append (s t : string) :
  String.length (s ++ t) = (String.length s + String.length t)%nat.
Proof.
  induction s as [| c s IH]; [reflexivity |].
  rewrite append_cons. cbn [String.length]. now rewrite IH.
Qed.

(** The loop of unquote undoes the escaper on valid UTF-8. *)
Lemma unquoteLoop_escapeEach (s : string) :
  utf8_ValidString s = true ->
  forall (fuel : nat) (buf : string),
    (String.length (escapeEach s) <= fuel)%nat ->
    unquoteLoop fuel (escapeEach s) buf = Some (buf ++ s, None).
Proof.
  intros Hv. pattern s. revert s Hv. apply ValidString_induction.
  - intros fuel buf _. destruct fuel; cbn; now rewrite append_nil_r.
  - intros c r Hc IH fuel buf Hfuel.
    destruct (Ascii.eqb_spec c "\") as [-> | Hb];
      [| destruct (Ascii.eqb_spec c "'") as [-> | Hq]].
    + change (escapeEach (String "\" r))
        with (String "\" (String "\" (escapeEach r))) in *.
      destruct fuel as [| k]; [cbn [String.length] in Hfuel; lia |].
      cbn [unquoteLoop]. rewrite UnquoteChar_backslash. cbn [negb orb].
      rewrite Bool.orb_true_r.
      rewrite IH by (cbn [String.length] in Hfuel; lia).
      now rewrite append_assoc.
    + change (escapeEach (String "'" r))
        with (String "\" (String "'" (escapeEach r))) in *.
      destruct fuel as [| k]; [cbn [String.length] in Hfuel; lia |].
      cbn [unquoteLoop]. rewrite UnquoteChar_quote. cbn [negb orb].
      rewrite Bool.orb_true_r.
      rewrite IH by (cbn [String.length] in Hfuel; lia).
      now rewrite append_assoc.
    + rewrite escapeEach_other in * by assumption.
      destruct fuel as [| k]; [cbn [String.length] in Hfuel; lia |].
      cbn [unquoteLoop]. rewrite UnquoteChar_plain by assumption.
      cbn [negb orb]. rewrite Bool.orb_true_r, z2b_b2z.
      rewrite IH by (cbn [String.length] in Hfuel; lia).
      now rewrite append_assoc.
  - intros c0 c1 r Hwf IH fuel buf Hfuel.
    pose proof Hwf as [H0 H1].
    destruct (high_not_special c0 ltac:(unfold utf8_RuneSelf; lia)) as [? ?].
    destruct (high_not_special c1 ltac:(unfold utf8_RuneSelf; lia)) as [? ?].
    rewrite !escapeEach_other in * by assumption.
    destruct fuel as [| k]; [cbn [String.length] in Hfuel; lia |].
    cbn [unquoteLoop].
    rewrite UnquoteChar_multibyte by (unfold utf8_RuneSelf; lia).
    rewrite DecodeRune_2 by assumption. cbn [fst snd].
    change (dropZ 2 (String c0 (String c1 (escapeEach r))))
      with (escapeEach r).
    replace (_ <? utf8_RuneSelf) with false by (unfold utf8_RuneSelf; lia).
    cbn [negb orb]. rewrite EncodeRune_2 by assumption.
    rewrite IH by (cbn [String.length] in Hfuel; lia).
    now rewrite append_assoc.
  - intros c0 c1 c2 r Hwf IH fuel buf Hfuel.
    pose proof Hwf as [H0 [H1 [_ [_ H2]]]].
    destruct (high_not_special c0 ltac:(unfold utf8_RuneSelf; lia)) as [? ?].
    destruct (high_not_special c1 ltac:(unfold utf8_RuneSelf; lia)) as [? ?].
    destruct (high_not_special c2 ltac:(unfold utf8_RuneSelf; lia)) as [? ?].
    rewrite !escapeEach_other in * by assumption.
    destruct fuel as [| k]; [cbn [String.length] in Hfuel; lia |].
    cbn [unquoteLoop].
    rewrite UnquoteChar_multibyte by (unfold utf8_RuneSelf; lia).
    rewrite DecodeRune_3 by assumption. cbn [fst snd].
    change (dropZ 3 (String c0 (String c1 (String c2 (escapeEach r)))))
      with (escapeEach r).
    replace (_ <? utf8_RuneSelf) with false
      by (unfold utf8_RuneSelf; destruct Hwf as [? [? [? [? ?]]]]; lia).
    cbn [negb orb]. rewrite EncodeRune_3 by assumption.
    rewrite IH by (cbn [String.length] in Hfuel; lia).
    now rewrite append_assoc.
  - intros c0 c1 c2 c3 r Hwf IH fuel buf Hfuel.
    pose proof Hwf as [H0 [H1 [HF0 [_ [H2 H3]]]]].
    destruct (high_not_special c0 ltac:(unfold utf8_RuneSelf; lia)) as [? ?].
    destruct (high_not_special c1 ltac:(unfold utf8_RuneSelf; lia)) as [? ?].
    destruct (high_not_special c2 ltac:(unfold utf8_RuneSelf; lia)) as [? ?].
    destruct (high_not_special c3 ltac:(unfold utf8_RuneSelf; lia)) as [? ?].
    rewrite !escapeEach_other in * by assumption.
    destruct fuel as [| k]; [cbn [String.length] in Hfuel; lia |].
    cbn [unquoteLoop].
    rewrite UnquoteChar_multibyte by (unfold utf8_RuneSelf; lia).
    rewrite DecodeRune_4 by assumption. cbn [fst snd].
    change (dropZ 4 (String c0 (String c1 (String c2 (String c3 (escapeEach r))))))
      with (escapeEach r).
    replace (_ <? utf8_RuneSelf) with false by (unfold utf8_RuneSelf; lia).
    cbn [negb orb]. rewrite EncodeRune_4 by assumption.
    rewrite IH by (cbn [String.length] in Hfuel; lia).
    now rewrite append_assoc.
Qed.

Lemma contains_append (s t : string) (c : ascii) :
  contains (s ++ t) c = contains s c || contains t c.
Proof.
  induction s as [| a s IH]; [reflexivity |].
  rewrite append_cons. cbn [contains]. rewrite IH.
  now destruct (Ascii.eqb a c).
Qed.

(** Fast path: an escaped body without a backslash is the string itself. *)
Lemma escapeEach_no_backslash (s : string) :
  contains (escapeEach s) "\" = false -> escapeEach s = s.
Proof.
  induction s as [| c t IH]; [reflexivity |].
  cbn [escapeEach]. rewrite contains_append. unfold escapeByte.
  destruct (Ascii.eqb_spec c "\") as [-> | Hb]; [discriminate |].
  destruct (Ascii.eqb_spec c "'") as [-> | Hq]; [discriminate |].
  intros H. apply orb_false_elim in H. destruct H as [_ H].
  rewrite append_cons, append_nil_l. now rewrite IH.
Qed.

Lemma escapeEach_plain (s : string) :
  contains s "\" = false -> contains s "'" = false -> escapeEach s = s.
Proof.
  induction s as [| c t IH]; [reflexivity |].
  cbn [contains escapeEach]. unfold escapeByte.
  destruct (Ascii.eqb c "\"); [discriminate |].
  destruct (Ascii.eqb c "'"); [discriminate |].
  intros Hb Hq. rewrite append_cons, append_nil_l. now rewrite IH.
Qed.

Lemma stake_append (s t : string) : stake (String.length s) (s ++ t) = s.
Proof.
  induction s as [| c s IH]; [now destruct t |].
  rewrite append_cons. cbn [String.length stake]. now rewrite IH.
Qed.

Lemma unquote_escapeEach (s : string) :
  utf8_ValidString s = true -> unquote (escapeEach s) = (s, None).
Proof.
  intros Hv. unfold unquote.
  destruct (contains (escapeEach s) "\") eqn:Hc; cbn [negb].
  - rewrite (unquoteLoop_escapeEach s Hv) by lia. reflexivity.
  - now rewrite escapeEach_no_backslash.
Qed.

(** *** The loops run to their end within their fuel *)

Lemma length_sdrop_le (n : nat) (s : string) :
  (String.length (sdrop n s) <= String.length s)%nat.
Proof.
  revert s. induction n as [| n IH]; intros s; [cbn; lia |].
  destruct s as [| c t]; cbn [sdrop String.length]; [lia |].
  specialize (IH t). lia.
Qed.

Lemma length_dropZ_lt (z : Z) (c : ascii) (t : string) :
  1 <= z -> (String.length (dropZ z (String c t)) < String.length (String c t))%nat.
Proof.
  intros Hz. unfold dropZ. destruct (Z.to_nat z) as [| n] eqn:E; [lia |].
  cbn [sdrop String.length]. pose proof (length_sdrop_le n t). lia.
Qed.

Lemma DecodeRune_size (c : ascii) (t : string) :
  1 <= snd (utf8_DecodeRuneInString (String c t)) <= 4.
Proof.
  unfold utf8_DecodeRuneInString. cbv zeta.
  rewrite len_cons. pose proof (len_nonneg t).
  replace (1 + len t <? 1) with false by lia.
  repeat match goal with
         | |- context [if ?b then _ else _] => destruct b
         end; cbn [snd]; lia.
Qed.

Lemma UnquoteChar_shorter (s ss : string) (c : Z) (mb : bool) :
  strconv_UnquoteChar s "'" = (c, mb, ss, None) ->
  (String.length ss < String.length s)%nat.
Proof.
  destruct s as [| c0 t0]; [discriminate |].
  unfold strconv_UnquoteChar, unquoteCharSyntax.
  pose proof (DecodeRune_size c0 t0) as Hsize.
  destruct (utf8_DecodeRuneInString (String c0 t0)) as [r size].
  cbn [snd] in Hsize.
  pose proof (length_dropZ_lt size c0 t0 ltac:(lia)) as Hdrop.
  destruct t0 as [| c1 t1].
  - repeat match goal with
           | |- context [if ?b then _ else _] => destruct b
           end; intros H; inversion H; subst; cbn [String.length] in *; lia.
  - pose proof (length_sdrop_le (Z.to_nat 2) t1) as H2.
    pose proof (length_sdrop_le (Z.to_nat 4) t1) as H4.
    pose proof (length_sdrop_le (Z.to_nat 8) t1) as H8.
    repeat match goal with
           | |- context [if ?b then _ else _] => destruct b
           | |- context [match ?x with Some _ => _ | None => _ end] =>
               destruct x
           end; intros H; inversion H; subst; unfold dropZ in *;
      cbn [String.length] in *; lia.
Qed.

(** [unquote] always gives its loop enough fuel. *)
Lemma unquoteLoop_fuel (fuel : nat) (s buf : string) :
  (String.length s <= fuel)%nat -> unquoteLoop fuel s buf <> None.
Proof.
  revert s buf. induction fuel as [| k IH]; intros s buf Hlen.
  - destruct s; [discriminate | cbn [String.length] in Hlen; lia].
  - destruct s as [| c0 t0]; [discriminate |].
    cbn [unquoteLoop].
    destruct (strconv_UnquoteChar (String c0 t0) "'")
      as [[[c mb] ss] [e |]] eqn:Hu; [discriminate |].
    apply UnquoteChar_shorter in Hu. cbn [String.length] in Hu, Hlen.
    destruct ((c <? utf8_RuneSelf) || negb mb); apply IH; lia.
Qed.

Lemma sdrop_cons_lt (n : nat) (c : ascii) (t : string) :
  (String.length (sdrop (S n) (String c t)) < String.length (String c t))%nat.
Proof.
  cbn [sdrop String.length]. pose proof (length_sdrop_le n t). lia.
Qed.

Local Opaque sdrop.

Lemma stdAt_shorter (l suffix : string) (s : std) :
  stdAt l = Some (s, suffix) ->
  (String.length suffix < String.length l)%nat.
Proof.
  destruct l as [| c t]; [discriminate |].
  unfold stdAt.
  repeat match goal with
         | |- context [if ?b then _ else _] => destruct b
         end;
    intros H; try discriminate H; injection H as _ <-;
    first [ apply sdrop_cons_lt | cbn [String.length]; lia ].
Qed.

Local Transparent sdrop.

Lemma nextStdChunk_shorter (prefix layout p suffix : string) (s : std) :
  nextStdChunkFrom prefix layout = (p, Some s, suffix) ->
  (String.length suffix < String.length layout)%nat.
Proof.
  revert prefix. induction layout as [| c t IH]; intros prefix; [discriminate |].
  cbn [nextStdChunkFrom].
  destruct (stdAt (String c t)) as [[s' suf] |] eqn:Hat.
  - intros H. inversion H; subst. now apply stdAt_shorter in Hat.
  - intros H. apply IH in H. cbn [String.length]. lia.
Qed.

(** [time.Parse] gives its loop enough fuel: any two amounts above the
    length of the layout give one result. *)
Lemma parseLoop_fuel (k1 k2 : nat) (alayout avalue layout value : string)
    (v : parseVars) :
  (String.length layout < k1)%nat -> (String.length layout < k2)%nat ->
  parseLoop k1 alayout avalue layout value v
    = parseLoop k2 alayout avalue layout value v.
Proof.
  revert k2 layout value v.
  induction k1 as [| k1 IH]; intros k2 layout value v H1 H2; [lia |].
  destruct k2 as [| k2]; [lia |].
  cbn [parseLoop]. unfold nextStdChunk.
  destruct (nextStdChunkFrom "" layout) as [[prefix st] suffix] eqn:Hchunk.
  destruct (skip value prefix) as [value' err].
  destruct err; [reflexivity |].
  destruct st as [s |]; [| reflexivity].
  apply nextStdChunk_shorter in Hchunk.
  destruct (negb (String.eqb (e_rangeErr (parseElem s suffix v value')) ""));
    [reflexivity |].
  destruct (e_err (parseElem s suffix v value')); [reflexivity |].
  apply IH; lia.
Qed.

Lemma trimLeftLoop_fuel (k1 k2 : nat) (s : string) (f : Z -> bool) :
  (String.length s <= k1)%nat -> (String.length s <= k2)%nat ->
  trimLeftLoop k1 s f = trimLeftLoop k2 s f.
Proof.
  revert k2 s. induction k1 as [| k1 IH]; intros k2 s H1 H2.
  - destruct s; [now destruct k2 | cbn [String.length] in H1; lia].
  - destruct k2 as [| k2];
      [destruct s; [reflexivity | cbn [String.length] in H2; lia] |].
    destruct s as [| c t]; [reflexivity |].
    cbn [trimLeftLoop].
    pose proof (DecodeRune_size c t) as Hsize.
    destruct (utf8_DecodeRuneInString (String c t)) as [r wid].
    cbn [snd] in Hsize.
    pose proof (length_dropZ_lt wid c t ltac:(lia)) as Hdrop.
    cbn [String.length] in *.
    destruct (f r); [apply IH; lia | reflexivity].
Qed.

Lemma backToRuneStart_le (k : nat) (s : string) (start lim : Z) :
  backToRuneStart k s start lim <= start.
Proof.
  revert start. induction k as [| k IH]; intros start; cbn [backToRuneStart];
    [lia |].
  destruct (start <? lim); [lia |].
  destruct (utf8_RuneStart (sidx s start)); [lia |].
  specialize (IH (start - 1)). lia.
Qed.

Lemma DecodeLastRune_size (c : ascii) (t : string) :
  1 <= snd (utf8_DecodeLastRuneInString (String c t)).
Proof.
  unfold utf8_DecodeLastRuneInString. cbv zeta.
  rewrite len_cons. pose proof (len_nonneg t) as Hlen.
  replace (1 + len t =? 0) with false by lia.
  destruct (sidx (String c t) (1 + len t - 1) <? utf8_RuneSelf);
    [cbn [snd]; lia |].
  pose proof (backToRuneStart_le 5 (String c t) (1 + len t - 1 - 1)
                (Z.max (1 + len t - utf8_UTFMax) 0)) as Hback.
  set (b := backToRuneStart 5 (String c t) (1 + len t - 1 - 1)
              (Z.max (1 + len t - utf8_UTFMax) 0)) in *.
  set (start := if b <? 0 then 0 else b).
  assert (Hstart : start < 1 + len t) by (subst start; destruct (b <? 0); lia).
  destruct (utf8_DecodeRuneInString _) as [r size].
  destruct (Z.eqb_spec (start + size) (1 + len t)); cbn [negb snd]; lia.
Qed.

Lemma stake_nonempty (i : Z) (c : ascii) (t : string) :
  0 < i -> exists t', takeZ i (String c t) = String c t'.
Proof.
  intros Hi. unfold takeZ. destruct (Z.to_nat i) as [| n] eqn:E; [lia |].
  now exists (stake n t).
Qed.

Lemma lastIndexLoop_fuel (k1 k2 : nat) (s : string) (i : Z) (f : Z -> bool)
    (truth : bool) :
  i < Z.of_nat k1 -> i < Z.of_nat k2 -> i <= len s ->
  lastIndexLoop k1 s i f truth = lastIndexLoop k2 s i f truth.
Proof.
  revert k2 i. induction k1 as [| k1 IH]; intros k2 i H1 H2 Hs.
  - destruct k2 as [| k2]; [reflexivity |]. cbn [lastIndexLoop].
    now replace (0 <? i) with false by lia.
  - destruct k2 as [| k2]; cbn [lastIndexLoop];
      [now replace (0 <? i) with false by lia |].
    destruct (Z.ltb_spec 0 i) as [Hi | Hi]; [| reflexivity].
    destruct s as [| c t]; [unfold len in Hs; cbn in Hs; lia |].
    destruct (stake_nonempty i c t Hi) as [t' ->].
    pose proof (DecodeLastRune_size c t') as Hsize.
    destruct (utf8_DecodeLastRuneInString (String c t')) as [r size].
    cbn [snd] in Hsize.
    destruct (Bool.eqb (f r) truth); [reflexivity |].
    apply IH; lia.
Qed.

(** *** Decimal rendering *)

Lemma digitOfZ_spec (n : Z) :
  0 <= n <= 9 -> digitVal (digitOfZ n) = n /\ digitByte (digitOfZ n) = z2b (0x30 + n).
Proof.
  intros H. rewrite <- (Z2Nat.id n) by lia.
  assert (Hk : (Z.to_nat n < 10)%nat) by lia.
  generalize dependent (Z.to_nat n). intros k Hk.
  do 10 (destruct k as [| k]; [split; reflexivity |]). lia.
Qed.

Lemma digitsText_app (l1 l2 : list digit) :
  digitsText (l1 ++ l2)%list = digitsText l1 ++ digitsText l2.
Proof.
  induction l1 as [| d l1 IH]; [reflexivity |].
  cbn [digitsText app]. now rewrite append_cons, IH.
Qed.

Lemma digitsValue_app (l1 l2 : list digit) (acc : Z) :
  digitsValue (l1 ++ l2)%list acc = digitsValue l2 (digitsValue l1 acc).
Proof.
  revert acc. induction l1 as [| d l1 IH]; intros acc; [reflexivity |].
  cbn [digitsValue app]. apply IH.
Qed.

(** The digit loop of fmtInteger writes the decimal digits of [u]. *)
Lemma fmtDigits_digits (fuel : nat) (u : Z) (acc : list digit) :
  0 <= u < 10 ^ Z.of_nat fuel -> fuel <> O ->
  exists d l,
    fmtDigits fuel u (digitsText acc) = digitsText ((d :: l) ++ acc)%list
    /\ digitsValue (d :: l) 0 = u.
Proof.
  revert u acc. induction fuel as [| k IH]; intros u acc Hu Hk; [congruence |].
  cbn [fmtDigits]. destruct (Z.leb_spec 10 u) as [Hbig | Hsmall].
  - assert (Hk0 : k <> O).
    { intros ->. change (10 ^ Z.of_nat 1) with 10 in Hu. lia. }
    assert (Hq : 0 <= u / 10 < 10 ^ Z.of_nat k).
    { rewrite Nat2Z.inj_succ, Z.pow_succ_r in Hu by lia.
      split; [apply Z.div_pos; lia | apply Z.div_lt_upper_bound; lia]. }
    assert (Hr : 0 <= u mod 10 <= 9) by (pose proof (Z.mod_pos_bound u 10); lia).
    destruct (digitOfZ_spec (u mod 10) Hr) as [Hval Hbyte].
    replace (48 + u - u / 10 * 10) with (48 + u mod 10)
      by (pose proof (Z.div_mod u 10); lia).
    rewrite <- Hbyte.
    change (String (digitByte (digitOfZ (u mod 10))) (digitsText acc))
      with (digitsText (digitOfZ (u mod 10) :: acc)).
    destruct (IH (u / 10) (digitOfZ (u mod 10) :: acc) Hq Hk0)
      as [d [l [Htext Hvalue]]].
    exists d, (l ++ [digitOfZ (u mod 10)])%list. split.
    + rewrite Htext. f_equal. cbn [app]. now rewrite <- app_assoc.
    + change (d :: l ++ [digitOfZ (u mod 10)])%list
        with ((d :: l) ++ [digitOfZ (u mod 10)])%list.
      rewrite digitsValue_app, Hvalue. cbn [digitsValue]. rewrite Hval.
      pose proof (Z.div_mod u 10). lia.
  - assert (Hr : 0 <= u <= 9) by lia.
    destruct (digitOfZ_spec u Hr) as [Hval Hbyte].
    exists (digitOfZ u), []. split.
    + cbn [app digitsText]. now rewrite Hbyte.
    + cbn [digitsValue]. lia.
Qed.

(** [%v] of an integer of 64 bits is a base-10 token that denotes it. *)
Lemma fmtInteger_token (z : Z) :
  - 2 ^ 63 <= z < 2 ^ 63 ->
  exists sg d ds,
    fmtInteger z None = tokenText sg d ds /\ tokenValue sg d ds = z.
Proof.
  intros Hz. unfold fmtInteger. cbv zeta.
  assert (H20 : 2 ^ 64 < 10 ^ Z.of_nat 20) by reflexivity.
  destruct (Z.ltb_spec z 0) as [Hneg | Hpos].
  - assert (Hu : uint64 (- z) = - z)
      by (unfold uint64; apply Z.mod_small; lia).
    rewrite Hu.
    destruct (fmtDigits_digits 20 (- z) [] ltac:(lia) ltac:(discriminate))
      as [d [l [Htext Hvalue]]].
    cbn [digitsText] in Htext. rewrite app_nil_r in Htext. rewrite Htext.
    replace (Z.to_nat (0 - len (digitsText (d :: l)))) with O
      by (pose proof (len_nonneg (digitsText (d :: l))); lia).
    exists MinusSign, d, l. split; [reflexivity |].
    unfold tokenValue. lia.
  - assert (Hu : uint64 z = z) by (unfold uint64; apply Z.mod_small; lia).
    rewrite Hu.
    destruct (fmtDigits_digits 20 z [] ltac:(lia) ltac:(discriminate))
      as [d [l [Htext Hvalue]]].
    cbn [digitsText] in Htext. rewrite app_nil_r in Htext. rewrite Htext.
    replace (Z.to_nat (0 - len (digitsText (d :: l)))) with O
      by (pose proof (len_nonneg (digitsText (d :: l))); lia).
    exists NoSign, d, l. split; [reflexivity |].
    unfold tokenValue. lia.
Qed.

Lemma inRange_int64 (w z : Z) :
  In w [8; 16; 32; 64] -> inRange w z = true -> - 2 ^ 63 <= z < 2 ^ 63.
Proof.
  intros Hw H. unfold inRange in H. apply andb_prop in H. destruct H as [H1 H2].
  apply Z.leb_le in H1. apply Z.ltb_lt in H2.
  each_width Hw; cbn in H1, H2; lia.
Qed.
(** *** The quoted literal *)

Lemma toQuotedString_each (Sprint : Value -> string) (v : Value) :
  toQuotedString Sprint v
    = ("'" ++ escapeEach (fmt_Sprintf_v Sprint v) ++ "'", None).
Proof. unfold toQuotedString. now rewrite escape_two_passes. Qed.

Lemma scan_escapeEach (s t : string) :
  bareQuote false (escapeEach s ++ t) = bareQuote false t
  /\ endsEscaped false (escapeEach s ++ t) = endsEscaped false t.
Proof.
  induction s as [| c s [IHq IHe]]; [split; reflexivity |].
  cbn [escapeEach]. unfold escapeByte. rewrite append_assoc.
  destruct (Ascii.eqb_spec c "\") as [-> | Hb];
    [| destruct (Ascii.eqb_spec c "'") as [-> | Hq]].
  - rewrite !append_cons, append_nil_l. cbn. now split.
  - rewrite !append_cons, append_nil_l. cbn. now split.
  - rewrite append_cons, append_nil_l. cbn [bareQuote endsEscaped].
    rewrite (proj2 (Ascii.eqb_neq c "\")), (proj2 (Ascii.eqb_neq c "'"))
      by assumption.
    now split.
Qed.

Lemma length_escapeEach_ge (s : string) :
  (String.length s <= String.length (escapeEach s))%nat.
Proof.
  induction s as [| c s IH]; [reflexivity |].
  cbn [escapeEach]. rewrite length_append. unfold escapeByte.
  destruct (Ascii.eqb c "\"); [cbn; lia |].
  destruct (Ascii.eqb c "'"); cbn; lia.
Qed.

Lemma escapeEach_fixed (s : string) :
  escapeEach s = s <-> contains s "\" = false /\ contains s "'" = false.
Proof.
  split; [| intros [Hb Hq]; now apply escapeEach_plain].
  induction s as [| c s IH]; [now split |].
  cbn [escapeEach contains]. unfold escapeByte.
  pose proof (length_escapeEach_ge s) as Hlen.
  destruct (Ascii.eqb_spec c "\") as [-> | Hb];
    [| destruct (Ascii.eqb_spec c "'") as [-> | Hq]].
  - rewrite !append_cons, append_nil_l. intros H. injection H as H.
    apply (f_equal String.length) in H. cbn [String.length] in H. lia.
  - rewrite !append_cons, append_nil_l. intros H. discriminate H.
  - rewrite append_cons, append_nil_l. intros H. injection H as H.
    now apply IH.
Qed.

Lemma TrimSpace_quoted (x : string) :
  strings_TrimSpace ("'" ++ x ++ "'") = "'" ++ x ++ "'".
Proof.
  rewrite append_cons, append_nil_l.
  apply TrimSpace_plain with (l := "'"%char) (x := String "'" x);
    [now rewrite append_cons | reflexivity | reflexivity | reflexivity
    | reflexivity].
Qed.

Lemma slice_quoted (x : string) :
  slice ("'" ++ x ++ "'") 1 (len ("'" ++ x ++ "'") - 1) = Ret x.
Proof.
  rewrite append_cons, append_nil_l. unfold slice. rewrite len_cons.
  unfold len. rewrite length_append. cbn [String.length].
  rewrite !(proj2 (Z.leb_le _ _)) by lia. cbn [andb].
  unfold takeZ, dropZ. change (Z.to_nat 1) with 1%nat. cbn [sdrop].
  replace (Z.to_nat _) with (String.length x) by lia.
  now rewrite stake_append.
Qed.

(** *** TrimSpace on ASCII white space *)

Lemma rev_app_append (s acc : string) :
  String.rev_app s acc = String.rev s ++ acc.
Proof.
  unfold String.rev. revert acc.
  induction s as [| c s IH]; intros acc; [reflexivity |].
  cbn [String.rev_app]. rewrite IH, (IH (String c "")), append_assoc.
  reflexivity.
Qed.

Lemma rev_append (a b : string) :
  String.rev (a ++ b) = String.rev b ++ String.rev a.
Proof.
  unfold String.rev.
  assert (H : forall acc, String.rev_app (a ++ b) acc
                          = String.rev_app b (String.rev_app a acc)).
  { induction a as [| c a IH]; intros acc; [reflexivity |].
    rewrite append_cons. cbn [String.rev_app]. apply IH. }
  rewrite H. apply rev_app_append.
Qed.

Lemma allSpace_append (a b : string) :
  allSpace (a ++ b) = allSpace a && allSpace b.
Proof.
  induction a as [| c a IH]; [reflexivity |].
  rewrite append_cons. cbn [allSpace]. now rewrite IH, andb_assoc.
Qed.

Lemma allSpace_rev (s : string) : allSpace (String.rev s) = allSpace s.
Proof.
  induction s as [| c s IH]; [reflexivity |].
  change (String c s) with (String c "" ++ s).
  rewrite rev_append, !allSpace_append, IH. cbn. now rewrite andb_comm.
Qed.

Lemma asciiSpace_ascii (b : Z) : asciiSpace b = true -> b < utf8_RuneSelf.
Proof.
  unfold asciiSpace, utf8_RuneSelf. intros H.
  repeat (apply orb_prop in H; destruct H as [H | H]);
    apply Z.eqb_eq in H; lia.
Qed.

Lemma trimSpaceStart_spaces (l y : string) :
  allSpace l = true -> trimSpaceStart (l ++ y) = trimSpaceStart y.
Proof.
  induction l as [| c l IH]; [reflexivity |].
  cbn [allSpace]. intros H. apply andb_prop in H. destruct H as [Hc Hl].
  rewrite append_cons. cbn [trimSpaceStart].
  pose proof (asciiSpace_ascii _ Hc).
  replace (utf8_RuneSelf <=? b2z c) with false by lia.
  rewrite Hc. now apply IH.
Qed.

Lemma trimSpaceStop_spaces (l y : string) :
  allSpace l = true -> trimSpaceStop (l ++ y) = trimSpaceStop y.
Proof.
  induction l as [| c l IH]; [reflexivity |].
  cbn [allSpace]. intros H. apply andb_prop in H. destruct H as [Hc Hl].
  rewrite append_cons. cbn [trimSpaceStop].
  pose proof (asciiSpace_ascii _ Hc).
  replace (utf8_RuneSelf <=? b2z c) with false by lia.
  rewrite Hc. now apply IH.
Qed.

(** TrimSpace takes ASCII white space off both ends of a string with
    plain ends. *)
Lemma TrimSpace_spaces (l x r : string) :
  allSpace l = true -> allSpace r = true -> plainEnds x ->
  strings_TrimSpace (l ++ x ++ r) = x.
Proof.
  intros Hl Hr [-> | [c [t [y [e [Hx [Hy [Hc [Hcs [He Hes]]]]]]]]]].
  - rewrite append_nil_l. unfold strings_TrimSpace.
    rewrite trimSpaceStart_spaces by assumption.
    rewrite <- (append_nil_r r), trimSpaceStart_spaces by assumption.
    reflexivity.
  - unfold strings_TrimSpace.
    rewrite trimSpaceStart_spaces by assumption.
    rewrite Hx at 1. rewrite append_cons. cbn [trimSpaceStart].
    replace (utf8_RuneSelf <=? b2z c) with false by lia. rewrite Hcs.
    rewrite <- append_cons, <- Hx.
    rewrite rev_append, trimSpaceStop_spaces
      by (now rewrite allSpace_rev).
    assert (Hrev : String.rev x = String e (String.rev y)).
    { rewrite Hy. unfold String.rev. apply rev_app_snoc. }
    rewrite Hrev. cbn [trimSpaceStop].
    replace (utf8_RuneSelf <=? b2z e) with false by lia. rewrite Hes.
    rewrite <- Hrev. apply rev_involutive.
Qed.

Lemma escapeEach_append (a b : string) :
  escapeEach (a ++ b) = escapeEach a ++ escapeEach b.
Proof.
  induction a as [| c a IH]; [reflexivity |].
  rewrite append_cons. cbn [escapeEach]. now rewrite IH, append_assoc.
Qed.

Lemma escapeEach_spaces (s : string) : allSpace s = true -> escapeEach s = s.
Proof.
  induction s as [| c s IH]; [reflexivity |].
  cbn [allSpace]. intros H. apply andb_prop in H. destruct H as [Hc Hs].
  rewrite escapeEach_other; [now rewrite IH | |];
    intros ->; discriminate Hc.
Qed.


Lemma plainEnds_escapeEach (s : string) :
  plainEnds s -> plainEnds (escapeEach s).
Proof.
  intros [-> | [c [t [x [e [Hs [Hx [Hc [Hcs [He Hes]]]]]]]]]];
    [now left | right].
  assert (Hfirst : exists c' t', escapeEach s = String c' t'
                     /\ b2z c' < utf8_RuneSelf
                     /\ asciiSpace (b2z c') = false).
  { rewrite Hs. cbn [escapeEach]. unfold escapeByte.
    destruct (Ascii.eqb c "\");
      [| destruct (Ascii.eqb c "'")];
      rewrite !append_cons, append_nil_l; eexists _, _;
      (split; [reflexivity |]); (split; [| assumption || reflexivity]);
      assumption || reflexivity. }
  assert (Hlast : exists x' e', escapeEach s = x' ++ String e' EmptyString
                    /\ b2z e' < utf8_RuneSelf
                    /\ asciiSpace (b2z e') = false).
  { rewrite Hx, escapeEach_append. cbn [escapeEach]. rewrite append_nil_r.
    unfold escapeByte.
    destruct (Ascii.eqb e "\"); [| destruct (Ascii.eqb e "'")].
    - exists (escapeEach x ++ "\"), "\"%char.
      rewrite append_assoc. repeat split.
    - exists (escapeEach x ++ "\"), "'"%char.
      rewrite append_assoc. repeat split.
    - exists (escapeEach x), e. now repeat split. }
  destruct Hfirst as [c' [t' [H1 [H2 H3]]]].
  destruct Hlast as [x' [e' [H4 [H5 H6]]]].
  exists c', t', x', e'. now repeat split.
Qed.

Lemma encoder_unknown (Sprint : Value -> string) (typ : string) :
  ~ In typ encoderTypes -> toMonetMappers Sprint !! typ = None.
Proof.
  intros H. apply not_elem_of_list_to_map_1. intros Hin.
  apply H, list_elem_of_In. exact Hin.
Qed.
(** ** The escaper *)

Section Escaper.

Variable Sprint : Value -> string.

Lemma escape_body_each (s : string) : escape_body Sprint s = escapeEach s.
Proof.
  unfold escape_body, toQuotedString, fmt_Sprintf_v. cbn [fst].
  rewrite escape_two_passes.
  rewrite append_cons, append_nil_l. cbn [sdrop].
  unfold takeZ. rewrite len_cons. unfold len. rewrite length_append.
  cbn [String.length].
  replace (Z.to_nat (1 + Z.of_nat (String.length (escapeEach s) + 1) - 2))
    with (String.length (escapeEach s)) by lia.
  apply stake_append.
Qed.

(** C7. The string escaper never fails: for every string it returns, with
    a nil error, the string in which first every backslash is replaced by
    two backslashes and then every single quote by a backslash and the
    quote, between two single quotes.  Byte by byte that is: a backslash
    doubled, a quote preceded by one backslash, every other byte kept.
    Encoding it's gives 'it\'s'. *)
Theorem C7_escaper (s : string) :
  toQuotedString Sprint (VString s)
    = ("'" ++ strings_Replace (strings_Replace s "\" "\\" (-1)) "'" "\'" (-1)
           ++ "'", None)
  /\ toQuotedString Sprint (VString s) = ("'" ++ escapeEach s ++ "'", None)
  /\ toQuotedString Sprint (VString "it's") = ("'it\'s'", None).
Proof.
  split; [reflexivity |]. split; [| reflexivity].
  unfold toQuotedString, fmt_Sprintf_v. now rewrite escape_two_passes.
Qed.

(** C3 (amended). For every string that is valid UTF-8, and for every
    string without a backslash and without a single quote, unescaping
    the body the escaper produces gives the string back. *)
Theorem C3_escape_unquote_roundtrip (s : string) :
  utf8_ValidString s = true
  \/ (contains s "\" = false /\ contains s "'" = false) ->
  unquote (escape_body Sprint s) = (s, None).
Proof.
  rewrite escape_body_each. intros [Hv | [Hb Hq]].
  - now apply unquote_escapeEach.
  - rewrite (escapeEach_plain s Hb Hq). unfold unquote. now rewrite Hb.
Qed.

End Escaper.

(** ** The decoder *)

Section Decoder.

Variable ParseFloat : string -> Z -> float64 * option error.
Variable toFloat32 : float64 -> float32.

Lemma decode_known (tag : string) (mapper : toGoConverter) (v : string) :
  toGoMappers ParseFloat toFloat32 !! tag = Some mapper -> convertToGo ParseFloat toFloat32 v tag = mapper (strings_TrimSpace v).
Proof. intros H. unfold convertToGo. now rewrite H. Qed.

Lemma decode_unknown (tag v : string) :
  toGoMappers ParseFloat toFloat32 !! tag = None ->
  convertToGo ParseFloat toFloat32 v tag = Ret (VNil, Some (Errorf ("Type not supported: " ++ tag))).
Proof. intros H. unfold convertToGo. now rewrite H. Qed.

(** C4. Decoding "2006-01-02 15:04:05 -0700" with the timestamp tag
    succeeds with 2006-01-02 15:04:05 at offset -0700 (-25200 seconds):
    the date-only and the date-time layouts are tried first and reject
    the input for its extra text, and the layout with the numeric zone
    yields the result. *)
Theorem C4_timestamp_zoned :
  convertToGo ParseFloat toFloat32 "2006-01-02 15:04:05 -0700" mdb_TIMESTAMP
    = Ret (VTimestamp (mkTime 2006 1 2 15 4 5 0 (time_FixedZone "" (-25200))),
           None)
  /\ snd (time_Parse "2006-01-02" "2006-01-02 15:04:05 -0700")
     = Some (ParseError "2006-01-02" "2006-01-02 15:04:05 -0700" ""
               " 15:04:05 -0700"
               (": extra text: " ++ time_quote " 15:04:05 -0700"))
  /\ time_Parse "2006-01-02 15:04:05 -0700" "2006-01-02 15:04:05 -0700"
     = (mkTime 2006 1 2 15 4 5 0 (time_FixedZone "" (-25200)), None).
Proof. repeat split; vm_compute; reflexivity. Qed.


Lemma mappers_keys (tag : string) :
  toGoMappers ParseFloat toFloat32 !! tag = None <-> ~ In tag knownTags.
Proof.
  unfold toGoMappers. rewrite <- not_elem_of_list_to_map.
  rewrite list_elem_of_In. reflexivity.
Qed.

(** C8. For every tag outside the known universe (the keys of the
    decode table) no rule is looked up and decode returns the nil value
    together with the error "Type not supported: <tag>". *)
Theorem C8_unknown_tag (value tag : string) :
  ~ In tag knownTags ->
  toGoMappers ParseFloat toFloat32 !! tag = None
  /\ convertToGo ParseFloat toFloat32 value tag
     = Ret (VNil, Some (Errorf ("Type not supported: " ++ tag))).
Proof.
  intros H. apply mappers_keys in H. split; [exact H |].
  now apply decode_unknown.
Qed.

Lemma mappers_fullNames :
  Forall (fun name => toGoMappers ParseFloat toFloat32 !! name = None) fullNames.
Proof. repeat constructor. Qed.

(** C1 (amended). The alias constants are the canonical constants under
    a second name, so decoding with an alias constant is decoding with
    the canonical one; the spelled-out names themselves ("character",
    "character_varying", "double_precision", ...) are not keys of the
    decode table and are rejected as unsupported types. *)
Theorem C1_alias_constants (v : string) :
  convertToGo ParseFloat toFloat32 v mdb_CHARACTER
    = convertToGo ParseFloat toFloat32 v mdb_CHAR
  /\ convertToGo ParseFloat toFloat32 v mdb_CHARACTER_VARYING
    = convertToGo ParseFloat toFloat32 v mdb_VARCHAR
  /\ convertToGo ParseFloat toFloat32 v mdb_CHARACHTER_LARGE_OBJECT
    = convertToGo ParseFloat toFloat32 v mdb_CLOB
  /\ convertToGo ParseFloat toFloat32 v mdb_BINARY_LARGE_OBJECT
    = convertToGo ParseFloat toFloat32 v mdb_BLOB
  /\ convertToGo ParseFloat toFloat32 v mdb_NUMERIC
    = convertToGo ParseFloat toFloat32 v mdb_DECIMAL
  /\ convertToGo ParseFloat toFloat32 v mdb_DOUBLE_PRECISION
    = convertToGo ParseFloat toFloat32 v mdb_DOUBLE
  /\ Forall (fun name =>
       convertToGo ParseFloat toFloat32 v name
         = Ret (VNil, Some (Errorf ("Type not supported: " ++ name))))
       fullNames.
Proof.
  repeat (split; [reflexivity |]).
  eapply Forall_impl; [apply mappers_fullNames |].
  intros name Hname. now apply decode_unknown.
Qed.

Lemma mappers_boolean :
  toGoMappers ParseFloat toFloat32 !! mdb_BOOLEAN = Some toBool.
Proof. reflexivity. Qed.

(** C6. With the boolean tag, "true", "T" and "1" decode to true and
    "false", "f" and "0" decode to false; in general an input whose
    trimmed text is one of 1, t, T, true, TRUE, True is true, one of
    0, f, F, false, FALSE, False is false, and any other input ("yes",
    say) fails with ParseBool's syntax error. *)
Theorem C6_boolean (v : string) :
  (convertToGo ParseFloat toFloat32 "true" mdb_BOOLEAN = Ret (VBool true, None)
   /\ convertToGo ParseFloat toFloat32 "T" mdb_BOOLEAN = Ret (VBool true, None)
   /\ convertToGo ParseFloat toFloat32 "1" mdb_BOOLEAN = Ret (VBool true, None)
   /\ convertToGo ParseFloat toFloat32 "false" mdb_BOOLEAN = Ret (VBool false, None)
   /\ convertToGo ParseFloat toFloat32 "f" mdb_BOOLEAN = Ret (VBool false, None)
   /\ convertToGo ParseFloat toFloat32 "0" mdb_BOOLEAN = Ret (VBool false, None)
   /\ convertToGo ParseFloat toFloat32 "yes" mdb_BOOLEAN
      = Ret (VBool false, Some (NumError "ParseBool" "yes" ErrSyntax)))
  /\ (In (strings_TrimSpace v) boolTrue ->
      convertToGo ParseFloat toFloat32 v mdb_BOOLEAN = Ret (VBool true, None))
  /\ (In (strings_TrimSpace v) boolFalse ->
      convertToGo ParseFloat toFloat32 v mdb_BOOLEAN = Ret (VBool false, None))
  /\ (~ In (strings_TrimSpace v) boolTrue ->
      ~ In (strings_TrimSpace v) boolFalse ->
      convertToGo ParseFloat toFloat32 v mdb_BOOLEAN
        = Ret (VBool false,
               Some (NumError "ParseBool" (strings_TrimSpace v) ErrSyntax))).
Proof.
  split; [repeat split; reflexivity |].
  rewrite (decode_known mdb_BOOLEAN toBool v mappers_boolean). unfold toBool.
  repeat split.
  - intros H. now rewrite (ParseBool_true _ H).
  - intros H. now rewrite (ParseBool_false _ H).
  - intros HT HF. now rewrite (ParseBool_other _ HT HF).
Qed.

Lemma mappers_stripped :
  Forall (fun tag =>
            toGoMappers ParseFloat toFloat32 !! tag = Some strip
            \/ toGoMappers ParseFloat toFloat32 !! tag = Some toByteArray)
         strippedTags.
Proof. repeat constructor; (left; reflexivity) || (right; reflexivity). Qed.

(** C9. Decode is not total for the tags whose rule slices off the first
    and last byte (char, varchar, clob, the three interval tags, blob):
    whenever the trimmed input is shorter than 2 bytes, the empty input
    included, the slice [v[1 : len(v)-1]] is out of bounds and the call
    panics; no error value is returned. *)
Theorem C9_short_input_panics (tag v : string) :
  In tag strippedTags ->
  len (strings_TrimSpace v) < 2 ->
  convertToGo ParseFloat toFloat32 v tag
    = Panic (SliceBoundsOutOfRange 1 (len (strings_TrimSpace v) - 1)).
Proof.
  intros Htag Hlen.
  pose proof mappers_stripped as Hm. rewrite Forall_forall in Hm.
  destruct (Hm tag (proj2 (list_elem_of_In _ _) Htag)) as [Hs | Hb].
  - rewrite (decode_known tag strip v Hs). unfold strip.
    now rewrite slice_short.
  - rewrite (decode_known tag toByteArray v Hb). unfold toByteArray.
    now rewrite slice_short.
Qed.

Lemma mappers_intFamily :
  Forall (fun '(tag, w, mk) =>
            exists rule, toGoMappers ParseFloat toFloat32 !! tag = Some rule
              /\ forall sg d ds,
                 rule (tokenText sg d ds)
                   = if inRange w (tokenValue sg d ds)
                     then Ret (mk (tokenValue sg d ds), None)
                     else Ret (mk 0, Some (NumError "ParseInt"
                                             (tokenText sg d ds) ErrRange)))
         intFamily.
Proof.
  repeat constructor;
    [ exists toInt8 | exists toInt16 | exists toInt16
    | exists toInt32 | exists toInt32 | exists toInt32
    | exists toInt64 | exists toInt64 | exists toInt64 | exists toInt64 ];
    (split; [reflexivity |]);
    first [ exact toInt8_token | exact toInt16_token
          | exact toInt32_token | exact toInt64_token ].
Qed.

(** C5. With the tinyint tag "127" decodes to the 8-bit integer 127 and
    "128" fails with ParseInt's range error.  In general, for each
    integer tag of width 8, 16, 32 or 64 and each base-10 token (an
    optional sign and one or more digits): a token whose number lies in
    the range of the width decodes to that number, and any other token
    fails with the range error. *)
Theorem C5_integer_family :
  convertToGo ParseFloat toFloat32 "127" mdb_TINYINT = Ret (VInt8 127, None)
  /\ convertToGo ParseFloat toFloat32 "128" mdb_TINYINT
     = Ret (VInt8 0, Some (NumError "ParseInt" "128" ErrRange))
  /\ Forall (fun '(tag, w, mk) =>
       forall (sg : sign) (d : digit) (ds : list digit),
         convertToGo ParseFloat toFloat32 (tokenText sg d ds) tag
           = if inRange w (tokenValue sg d ds)
             then Ret (mk (tokenValue sg d ds), None)
             else Ret (mk 0, Some (NumError "ParseInt"
                                     (tokenText sg d ds) ErrRange)))
       intFamily.
Proof.
  split; [reflexivity |]. split; [reflexivity |].
  eapply Forall_impl; [apply mappers_intFamily |].
  intros [[tag w] mk] [rule [Hrule Htok]] sg d ds.
  rewrite (decode_known tag rule _ Hrule), TrimSpace_token. apply Htok.
Qed.

End Decoder.

(** ** The encoder *)

Section EncoderFacts.

Variable Sprint : Value -> string.

(** X2. A quoted literal cannot be broken out of: whatever the value, the
    escaper returns, without an error, a body between two single quotes
    in which every single quote is preceded by an escaping backslash and
    which does not end inside an escape, so the closing quote is the
    first bare quote of the literal. *)
Theorem X2_literal_closed (v : Value) :
  exists body,
    toQuotedString Sprint v = ("'" ++ body ++ "'", None)
    /\ bareQuote false body = false
    /\ endsEscaped false body = false.
Proof.
  exists (escapeEach (fmt_Sprintf_v Sprint v)).
  split; [apply toQuotedString_each |].
  destruct (scan_escapeEach (fmt_Sprintf_v Sprint v) EmptyString)
    as [Hq He].
  rewrite append_nil_r in Hq, He. now split.
Qed.

(** X3. The encoder has a rule for every value of the codec and for a Go
    [int], and the rule's own type switch accepts it: no error is
    returned for them, and nil is written as NULL.  A value of any type
    without a rule gives the empty text and the error
    "Type not supported: " followed by the name of its type. *)
Theorem X3_encoder_total :
  (forall v : Value, snd (convertToMonet Sprint (DV v)) = None)
  /\ (forall i : Z, snd (convertToMonet Sprint (DInt i)) = None)
  /\ convertToMonet Sprint (DV VNil) = ("NULL", None)
  /\ (forall typ r : string,
        ~ In typ encoderTypes ->
        convertToMonet Sprint (DOther typ r)
          = (EmptyString, Some (Errorf ("Type not supported: " ++ typ)))).
Proof.
  split; [intros v; now destruct v |].
  split; [reflexivity |]. split; [reflexivity |].
  intros typ r H. unfold convertToMonet. cbn [typeName].
  now rewrite (encoder_unknown Sprint typ H).
Qed.

End EncoderFacts.

(** ** Encoder and decoder together *)

Section Codec.

Variable ParseFloat : string -> Z -> float64 * option error.
Variable toFloat32 : float64 -> float32.
Variable Sprint : Value -> string.

Lemma encode_intFamily :
  Forall (fun '(tag, w, mk) =>
            In w [8; 16; 32; 64]
            /\ forall z : Z,
                 convertToMonet Sprint (DV (mk z)) = (fmtInteger z None, None))
         intFamily.
Proof. repeat constructor; simpl; tauto. Qed.

(** X1. Integers and booleans survive encoding and decoding: for every
    integer tag and every number in the range of its Go type, decoding
    the encoder's text of the number with that tag gives the number
    back; decoding the text of a boolean with the boolean tag gives the
    boolean back. *)
Theorem X1_scalar_roundtrip (z : Z) (b : bool) :
  Forall (fun '(tag, w, mk) =>
            inRange w z = true ->
            convertToGo ParseFloat toFloat32
              (fst (convertToMonet Sprint (DV (mk z)))) tag
              = Ret (mk z, None))
         intFamily
  /\ convertToGo ParseFloat toFloat32
       (fst (convertToMonet Sprint (DV (VBool b)))) mdb_BOOLEAN
     = Ret (VBool b, None).
Proof.
  split; [| now destruct b].
  pose proof encode_intFamily as Henc.
  pose proof (mappers_intFamily ParseFloat toFloat32) as Hdec.
  rewrite Forall_forall in *. intros [[tag w] mk] Hin Hrange.
  destruct (Henc _ Hin) as [Hw Htext].
  destruct (Hdec _ Hin) as [rule [Hrule Htok]].
  rewrite Htext. cbn [fst].
  destruct (fmtInteger_token z (inRange_int64 w z Hw Hrange))
    as [sg [d [ds [-> Hval]]]].
  rewrite (decode_known ParseFloat toFloat32 tag rule _ Hrule).
  rewrite TrimSpace_token, Htok, Hval, Hrange. reflexivity.
Qed.

Lemma mappers_text :
  Forall (fun tag => toGoMappers ParseFloat toFloat32 !! tag = Some strip)
         textTags.
Proof. repeat constructor. Qed.

Lemma encode_string (s : string) :
  convertToMonet Sprint (DV (VString s))
    = ("'" ++ escapeEach s ++ "'", None).
Proof. apply (toQuotedString_each (Sprint_known Sprint) (VString s)). Qed.

Lemma encode_bytes (b : string) :
  convertToMonet Sprint (DV (VBytes b))
    = ("'" ++ escapeEach b ++ "'", None).
Proof. apply (toQuotedString_each (Sprint_known Sprint) (VString b)). Qed.

(** X4. A byte slice is written like the string of the same bytes, and
    the blob rule does not undo the escaping: decoding the encoder's
    text of a byte slice with the blob tag gives the escaped bytes, so
    the slice comes back exactly when it holds no backslash and no
    single quote. *)
Theorem X4_bytes_keep_escapes (b : string) :
  convertToMonet Sprint (DV (VBytes b))
    = convertToMonet Sprint (DV (VString b))
  /\ convertToGo ParseFloat toFloat32
       (fst (convertToMonet Sprint (DV (VBytes b)))) mdb_BLOB
     = Ret (VBytes (escapeEach b), None)
  /\ (convertToGo ParseFloat toFloat32
        (fst (convertToMonet Sprint (DV (VBytes b)))) mdb_BLOB
      = Ret (VBytes b, None)
      <-> contains b "\" = false /\ contains b "'" = false).
Proof.
  assert (Hdec : convertToGo ParseFloat toFloat32
                   (fst (convertToMonet Sprint (DV (VBytes b)))) mdb_BLOB
                 = Ret (VBytes (escapeEach b), None)).
  { rewrite encode_bytes. cbn [fst].
    rewrite (decode_known ParseFloat toFloat32 mdb_BLOB toByteArray)
      by reflexivity.
    rewrite TrimSpace_quoted. unfold toByteArray.
    now rewrite slice_quoted. }
  split; [now rewrite encode_bytes, encode_string |].
  split; [exact Hdec |].
  rewrite Hdec, <- escapeEach_fixed. split.
  - intros H. now injection H.
  - now intros ->.
Qed.

(** X5. A string survives encoding and decoding with a text tag up to
    the white space at its ends: for a valid UTF-8 text that begins and
    ends with an ASCII byte other than white space (or is empty), with
    ASCII white space put before and after it, decoding the encoder's
    text gives the text without that white space, and no error.
    Backslashes and single quotes inside the text come back as they
    were. *)
Theorem X5_string_roundtrip (tag l core r : string) :
  In tag textTags ->
  allSpace l = true -> allSpace r = true ->
  plainEnds core -> utf8_ValidString core = true ->
  convertToGo ParseFloat toFloat32
    (fst (convertToMonet Sprint (DV (VString (l ++ core ++ r))))) tag
    = Ret (VString core, None).
Proof.
  intros Htag Hl Hr Hends Hvalid.
  pose proof mappers_text as Hm. rewrite Forall_forall in Hm.
  rewrite encode_string. cbn [fst].
  rewrite (decode_known ParseFloat toFloat32 tag strip)
    by (apply Hm, list_elem_of_In, Htag).
  rewrite TrimSpace_quoted. unfold strip. rewrite slice_quoted.
  cbn [obind].
  rewrite !escapeEach_append, (escapeEach_spaces l Hl),
    (escapeEach_spaces r Hr).
  rewrite (TrimSpace_spaces l (escapeEach core) r Hl Hr
             (plainEnds_escapeEach core Hends)).
  now rewrite (unquote_escapeEach core Hvalid).
Qed.

End Codec.
(** ** Concrete runs *)

(** The models of the library functions on inputs whose results are
    known from the Go documentation and tests. *)
Example DecodeRune_euro :
  utf8_DecodeRuneInString "€!" = (0x20AC, 3)
  /\ utf8_DecodeLastRuneInString "!€" = (0x20AC, 3)
  /\ utf8_EncodeRune 0x20AC = "€"
  /\ utf8_DecodeRuneInString (String (z2b 0xFF) "a") = (utf8_RuneError, 1)
  /\ utf8_ValidString "a€b" = true
  /\ utf8_ValidString (String (z2b 0xC0) (String (z2b 0x80) "")) = false.
Proof. repeat split; reflexivity. Qed.

Example TrimSpace_runs :
  strings_TrimSpace (String (z2b 0x09) " a b " ++ String (z2b 0x0A) "") = "a b"
  /\ strings_TrimSpace "   " = ""
  /\ strings_TrimSpace
       (String (z2b 0xC2) (String (z2b 0xA0) " x€ ")
        ++ String (z2b 0xE2) (String (z2b 0x80) (String (z2b 0x83) "")))
     = "x€".
Proof. repeat split; reflexivity. Qed.

Example UnquoteChar_runs :
  strconv_UnquoteChar "\n." "'" = (0x0A, false, ".", None)
  /\ strconv_UnquoteChar "\x41." "'" = (0x41, false, ".", None)
  /\ strconv_UnquoteChar "€." "'" = (0x20AC, true, ".", None)
  /\ strconv_UnquoteChar "\101." "'" = (0x41, false, ".", None)
  /\ strconv_UnquoteChar "'." "'" = unquoteCharSyntax
  /\ strconv_UnquoteChar "\q" "'" = unquoteCharSyntax
  /\ strconv_UnquoteChar "\" "'" = unquoteCharSyntax.
Proof. repeat split; reflexivity. Qed.

Example ParseInt_runs :
  strconv_ParseInt "-128" 10 8 = (-128, None)
  /\ strconv_ParseInt "-129" 10 8
     = (-128, Some (NumError "ParseInt" "-129" ErrRange))
  /\ strconv_ParseInt "+32767" 10 16 = (32767, None)
  /\ strconv_ParseInt "9223372036854775808" 10 64
     = (9223372036854775807,
        Some (NumError "ParseInt" "9223372036854775808" ErrRange))
  /\ strconv_ParseInt "12a" 10 32 = (0, Some (NumError "ParseInt" "12a" ErrSyntax))
  /\ strconv_ParseInt "" 10 32 = (0, Some (NumError "ParseInt" "" ErrSyntax))
  /\ strconv_ParseInt "-" 10 32 = (0, Some (NumError "ParseInt" "-" ErrSyntax)).
Proof. repeat split; reflexivity. Qed.

Example time_Parse_runs :
  time_Parse "2006-01-02 15:04:05 -0700 MST" "2016-02-29 23:59:59 +0100 CET"
    = (mkTime 2016 2 29 23 59 59 0 (time_FixedZone "CET" 3600), None)
  /\ time_Parse "Mon Jan 2 15:04:05 -0700 MST 2006"
                "Tue Feb 3 04:05:06 +0000 UTC 2015"
    = (mkTime 2015 2 3 4 5 6 0 time_UTC, None)
  /\ time_Parse "2006-01-02" "2015-02-29"
    = (time_zero,
       Some (ParseError "2006-01-02" "2015-02-29" "" "" ": day out of range"))
  /\ time_Parse "2006-01-02" "2015-13-01"
    = (time_zero,
       Some (ParseError "2006-01-02" "2015-13-01" "01" "-01"
               ": month out of range"))
  /\ time_Parse "15:04:05" "7:04:05.25" = (mkTime 0 1 1 7 4 5 250000000 time_UTC, None).
Proof. repeat split; reflexivity. Qed.

(** The end-to-end example of the escaper and the unescaper. *)
Example its_end_to_end :
  toQuotedString sample_Sprint (VString "it's") = ("'it\'s'", None)
  /\ unquote "it\'s" = ("it's", None)
  /\ convertToGo sample_ParseFloat sample_float32 " 'it\'s' " mdb_VARCHAR
     = Ret (VString "it's", None)
  /\ convertToGo sample_ParseFloat sample_float32 "it\'s" mdb_UUID
     = Ret (VString "it's", None)
  /\ convertToGo sample_ParseFloat sample_float32 "'ab'" mdb_BLOB
     = Ret (VBytes "ab", None)
  /\ convertToGo sample_ParseFloat sample_float32 "'a\qb'" mdb_CHAR
     = Ret (VString "", Some (StrconvError ErrSyntax)).
Proof. repeat split; reflexivity. Qed.

Lemma C8_unknown_tag_witness :
  ~ In "character" knownTags
  /\ toGoMappers sample_ParseFloat sample_float32 !! "character" = None
  /\ convertToGo sample_ParseFloat sample_float32 "'a'" "character"
     = Ret (VNil, Some (Errorf "Type not supported: character")).
Proof.
  assert (H : ~ In "character" knownTags)
    by (vm_compute; intuition discriminate).
  split; [exact H |].
  exact (C8_unknown_tag sample_ParseFloat sample_float32 "'a'" "character" H).
Defined.

(** Against C1 as stated: the spelled-out name "character" does not
    decode like "char". *)
Lemma C1_counterexample :
  convertToGo sample_ParseFloat sample_float32 "'a'" "character"
    = Ret (VNil, Some (Errorf "Type not supported: character"))
  /\ convertToGo sample_ParseFloat sample_float32 "'a'" "char"
    = Ret (VString "a", None)
  /\ convertToGo sample_ParseFloat sample_float32 "'a'" "character"
    <> convertToGo sample_ParseFloat sample_float32 "'a'" "char".
Proof. repeat split; try reflexivity. vm_compute. discriminate. Qed.

(** Against C2 as stated: the list does not begin with the pattern of
    date, time and zone name; its head is the date-only pattern. *)
Lemma C2_counterexample : ~ spec_most_specific_first timeFormats.
Proof.
  intros [[f [rest [Heq [_ [Hclock _]]]]] _].
  injection Heq as <- _. vm_compute in Hclock. discriminate.
Qed.

Lemma C6_boolean_witness :
  ~ In (strings_TrimSpace "yes") boolTrue
  /\ ~ In (strings_TrimSpace "yes") boolFalse
  /\ convertToGo sample_ParseFloat sample_float32 "yes" mdb_BOOLEAN
     = Ret (VBool false, Some (NumError "ParseBool" "yes" ErrSyntax)).
Proof.
  assert (HT : ~ In (strings_TrimSpace "yes") boolTrue)
    by (vm_compute; intuition discriminate).
  assert (HF : ~ In (strings_TrimSpace "yes") boolFalse)
    by (vm_compute; intuition discriminate).
  split; [exact HT |]. split; [exact HF |].
  exact (proj2 (proj2 (proj2
           (C6_boolean sample_ParseFloat sample_float32 "yes"))) HT HF).
Defined.

Lemma C9_short_input_panics_witness :
  In mdb_CHAR strippedTags
  /\ len (strings_TrimSpace "") < 2
  /\ convertToGo sample_ParseFloat sample_float32 "" mdb_CHAR
     = Panic (SliceBoundsOutOfRange 1 (-1)).
Proof.
  assert (Htag : In mdb_CHAR strippedTags) by (left; reflexivity).
  assert (Hlen : len (strings_TrimSpace "") < 2) by reflexivity.
  split; [exact Htag |]. split; [exact Hlen |].
  exact (C9_short_input_panics sample_ParseFloat sample_float32
           mdb_CHAR "" Htag Hlen).
Defined.

(** Against C3 as stated: a string that is not valid UTF-8 and holds a
    quote comes back with U+FFFD in place of the stray byte. *)
Lemma C3_counterexample :
  unquote (escape_body sample_Sprint (String (z2b 0xFF) "'"))
    = (String (z2b 0xEF) (String (z2b 0xBF) (String (z2b 0xBD) "'")), None)
  /\ unquote (escape_body sample_Sprint (String (z2b 0xFF) "'"))
     <> (String (z2b 0xFF) "'", None).
Proof. split; [reflexivity | vm_compute; discriminate]. Qed.

Lemma C3_escape_unquote_roundtrip_witness :
  (utf8_ValidString "it's a \ test" = true
   \/ (contains "it's a \ test" "\" = false
       /\ contains "it's a \ test" "'" = false))
  /\ unquote (escape_body sample_Sprint "it's a \ test")
     = ("it's a \ test", None).
Proof.
  assert (H : utf8_ValidString "it's a \ test" = true
              \/ (contains "it's a \ test" "\" = false
                  /\ contains "it's a \ test" "'" = false))
    by (left; reflexivity).
  split; [exact H |].
  exact (C3_escape_unquote_roundtrip sample_Sprint "it's a \ test" H).
Defined.

Lemma X1_scalar_roundtrip_witness :
  inRange 8 (-128) = true
  /\ convertToGo sample_ParseFloat sample_float32
       (fst (convertToMonet sample_Sprint (DV (VInt8 (-128))))) mdb_TINYINT
     = Ret (VInt8 (-128), None).
Proof.
  split; [reflexivity |].
  exact (Forall_inv
           (proj1 (X1_scalar_roundtrip sample_ParseFloat sample_float32
                     sample_Sprint (-128) true)) eq_refl).
Defined.

Lemma X3_encoder_total_witness :
  ~ In "uint" encoderTypes
  /\ convertToMonet sample_Sprint (DOther "uint" "7")
     = (EmptyString, Some (Errorf "Type not supported: uint")).
Proof.
  assert (H : ~ In "uint" encoderTypes).
  { cbn. intros H. repeat (destruct H as [H | H]; [discriminate H |]).
    exact H. }
  split; [exact H |].
  exact (proj2 (proj2 (proj2 (X3_encoder_total sample_Sprint)))
           "uint" "7" H).
Defined.

Lemma X5_string_roundtrip_witness :
  convertToGo sample_ParseFloat sample_float32
    (fst (convertToMonet sample_Sprint (DV (VString " it's a \ ")))) mdb_VARCHAR
    = Ret (VString "it's a \", None).
Proof.
  apply (X5_string_roundtrip sample_ParseFloat sample_float32 sample_Sprint
           mdb_VARCHAR " " "it's a \" " ").
  - cbn. tauto.
  - reflexivity.
  - reflexivity.
  - right. exists "i"%char, "t's a \", "it's a ", "\"%char.
    repeat split.
  - reflexivity.
Defined.
